(** * library-pack: configuration resolution, config loading, path mapping

    A shallow embedding of [config.ts], [index.ts] and [utils.ts] of the
    library-pack repository, and the properties its specification states
    about them.

    Layout:
    - [JS]      the JavaScript values the code manipulates: objects as
                ordered property lists, truthiness, [||], spread, [?.];
    - [Config]  [resolveOptions] and the defaults it fills in;
    - [Path]    the POSIX flavour of [node:path] that [transform] calls;
    - [Json]    [strip-json-comments], [JSON.parse] and [JSON.stringify]
                on the JSON a configuration file and a source map use;
    - [Eff], [World]  the effect monad the asynchronous code runs in and
                the collaborators of the loaders and of [pack] (file
                system, glob, dynamic import, transformer, yaml);
    - [Loader], [Pack]  the loaders, [transform], [pack] and [run];
    - [Yaml], [Sample]  a small world to run the code in;
    - the properties: facts about property lists, the loaders and
      paths first, then one block per claim of the specification. *)

From Stdlib Require Import String Ascii List ZArith Bool Lia.
From Stdlib Require Import DecimalString.
Import ListNotations.
Open Scope string_scope.
Set Warnings "-register-all".

(* ================================================================== *)
(** ** JavaScript values *)
(* ================================================================== *)

Module JS.

(** A value as [JSON.parse], [yaml.parse] or an object literal produces
    it.  The property list of [VObj] is kept in the order in which the
    object enumerates its own keys.  Numbers are the integers. *)
Inductive value : Type :=
| VUndef
| VNull
| VBool (b : bool)
| VNum (n : Z)
| VStr (s : string)
| VArr (items : list value)
| VObj (props : list (string * value)).

Definition object : Type := list (string * value).

(** ToBoolean: [undefined], [null], [false], [0] and [""] are falsy;
    every array and every object, the empty ones too, is truthy. *)
Definition truthy (v : value) : bool :=
  match v with
  | VUndef | VNull => false
  | VBool b => b
  | VNum n => negb (Z.eqb n 0)
  | VStr s => negb (String.eqb s "")
  | VArr _ | VObj _ => true
  end.

(** [a || b] *)
Definition or_else (a b : value) : value :=
  if truthy a then a else b.

Fixpoint lookup (o : object) (k : string) : option value :=
  match o with
  | [] => None
  | (k', v) :: rest => if String.eqb k k' then Some v else lookup rest k
  end.

(** [o.k] on an object: an absent property reads as [undefined]. *)
Definition get_prop (o : object) (k : string) : value :=
  match lookup o k with
  | Some v => v
  | None => VUndef
  end.

(** [v?.k]: short-circuits to [undefined] on [undefined] and [null];
    on a primitive or an array the property is looked up on the
    prototype, where none of the keys read by this program exists. *)
Definition opt_get (v : value) (k : string) : value :=
  match v with
  | VObj o => get_prop o k
  | _ => VUndef
  end.

(** Defining property [k] in an object under construction: an existing
    key keeps its place and takes the new value, a new key goes last. *)
Fixpoint set_prop (o : object) (k : string) (v : value) : object :=
  match o with
  | [] => [(k, v)]
  | (k', v') :: rest =>
      if String.eqb k k' then (k', v) :: rest
      else (k', v') :: set_prop rest k v
  end.

Definition index_key (i : nat) : string :=
  NilEmpty.string_of_uint (Nat.to_uint i).

Fixpoint indexed {A : Type} (f : A -> value) (i : nat) (l : list A)
  : object :=
  match l with
  | [] => []
  | x :: rest => (index_key i, f x) :: indexed f (S i) rest
  end.

(** [...v] inside an object literal: the own enumerable properties of
    [v].  Nothing for [undefined], [null], booleans and numbers; the
    indexed elements of an array; the indexed characters of a string. *)
Definition spread (v : value) : object :=
  match v with
  | VObj o => o
  | VArr items => indexed (fun x => x) 0 items
  | VStr s => indexed (fun c => VStr (String c EmptyString)) 0
                (list_ascii_of_string s)
  | _ => []
  end.

(** [{ ...base, k1: v1, ..., kn: vn }] *)
Definition object_literal (base : object) (fields : list (string * value))
  : object :=
  fold_left (fun acc kv => set_prop acc (fst kv) (snd kv)) fields base.

Definition strs (l : list string) : value := VArr (map VStr l).

End JS.

Export JS.

Declare Scope js_scope.
Delimit Scope js_scope with js.
Infix "||" := or_else (at level 50, left associativity) : js_scope.

(* ================================================================== *)
(** ** config.ts: resolveOptions *)
(* ================================================================== *)

Module Config.

Definition default_excludes : list string :=
  ["node_modules/**/*"; "**/*.test.ts"; "**/test/**/*"].

(** The keys [resolveOptions] writes after the spread. *)
Definition resolved_keys : list string :=
  ["srcdir"; "outdir"; "includes"; "excludes"; "sourcemap"; "typescript"].

(** config.ts, [resolveOptions]. *)
Definition resolveOptions (options : object) : object :=
  let typescript := get_prop options "typescript" in
  let declaration := opt_get typescript "declaration" in
  object_literal (spread (VObj options))
    [ ("srcdir", get_prop options "srcdir" || VStr "src");
      ("outdir", get_prop options "outdir" || VStr "out");
      ("includes", get_prop options "includes" || strs ["**/*.ts"]);
      ("excludes", get_prop options "excludes" || strs default_excludes);
      ("sourcemap", get_prop options "sourcemap" || VBool true);
      ("typescript",
        VObj (object_literal (spread typescript)
          [ ("declaration",
              declaration
              || VObj [("sourcemap",
                         opt_get declaration "sourcemap" || VBool true)])
          ]))
    ]%js.

(** The two values the nested literal of [resolveOptions] builds, named
    for the statements below. *)
Definition resolved_declaration (options : object) : value :=
  let d := opt_get (get_prop options "typescript") "declaration" in
  (d || VObj [("sourcemap", opt_get d "sourcemap" || VBool true)])%js.

Definition resolved_typescript (options : object) : value :=
  VObj (set_prop (spread (get_prop options "typescript")) "declaration"
          (resolved_declaration options)).

End Config.

Export Config.

(* ================================================================== *)
(** ** node:path, POSIX flavour *)
(* ================================================================== *)

(** The functions of [node:path] that [index.ts] and [utils.ts] call,
    as they behave on POSIX.  Paths are split into the pieces between
    slashes where Node walks character codes; the results agree.
    [process.cwd()] is the parameter [cwd]. *)
Module Path.

Definition slash : ascii := "/"%char.
Definition dot : ascii := "."%char.

Definition is_slash (c : ascii) : bool := Ascii.eqb c slash.
Definition is_dot (c : ascii) : bool := Ascii.eqb c dot.

Fixpoint drop_while {A} (f : A -> bool) (l : list A) : list A :=
  match l with
  | [] => []
  | x :: rest => if f x then drop_while f rest else l
  end.

Fixpoint take_while {A} (f : A -> bool) (l : list A) : list A :=
  match l with
  | [] => []
  | x :: rest => if f x then x :: take_while f rest else []
  end.

(** The pieces between slashes: [split "a//b" = ["a"; ""; "b"]]. *)
Fixpoint split (s : string) : list string :=
  match s with
  | EmptyString => [""]
  | String c rest =>
      if is_slash c then "" :: split rest
      else match split rest with
           | [] => [String c ""]
           | piece :: pieces => String c piece :: pieces
           end
  end.

Definition isAbsolute (path : string) : bool :=
  match path with
  | String c _ => is_slash c
  | EmptyString => false
  end.

Definition ends_with_slash (path : string) : bool :=
  match rev (list_ascii_of_string path) with
  | c :: _ => is_slash c
  | [] => false
  end.

(** [normalizeString]: the pieces are taken left to right onto a stack
    (most recent first); empty pieces and "." are skipped; ".." removes
    the piece before it, or is kept when there is none to remove and
    [allowAboveRoot] holds. *)
Fixpoint normalize_pieces (allowAboveRoot : bool) (stack pieces : list string)
  : list string :=
  match pieces with
  | [] => rev stack
  | piece :: rest =>
      if (piece =? "") || (piece =? ".") then
        normalize_pieces allowAboveRoot stack rest
      else if piece =? ".." then
        match stack with
        | top :: below =>
            if top =? ".." then
              normalize_pieces allowAboveRoot
                (if allowAboveRoot then ".." :: stack else stack) rest
            else normalize_pieces allowAboveRoot below rest
        | [] =>
            normalize_pieces allowAboveRoot
              (if allowAboveRoot then [".."] else []) rest
        end
      else normalize_pieces allowAboveRoot (piece :: stack) rest
  end.

Definition normalizeString (path : string) (allowAboveRoot : bool) : string :=
  String.concat "/" (normalize_pieces allowAboveRoot [] (split path)).

(** The loop of [resolve], from the last argument towards the first and
    then the working directory, until an absolute path is met. *)
Fixpoint resolve_loop (paths_right_to_left : list string)
    (resolvedPath : string) : string * bool :=
  match paths_right_to_left with
  | [] => (resolvedPath, false)
  | path :: more =>
      if path =? "" then resolve_loop more resolvedPath
      else
        let resolvedPath' := path ++ "/" ++ resolvedPath in
        if isAbsolute path then (resolvedPath', true)
        else resolve_loop more resolvedPath'
  end.

Definition resolve (cwd : string) (paths : list string) : string :=
  let '(resolvedPath, resolvedAbsolute) :=
    resolve_loop (rev paths ++ [cwd]) "" in
  let normalized := normalizeString resolvedPath (negb resolvedAbsolute) in
  if resolvedAbsolute then "/" ++ normalized
  else if normalized =? "" then "." else normalized.

Definition normalize (path : string) : string :=
  if path =? "" then "."
  else
    let absolute := isAbsolute path in
    let trailingSeparator := ends_with_slash path in
    let normalized := normalizeString path (negb absolute) in
    if normalized =? "" then
      if absolute then "/" else if trailingSeparator then "./" else "."
    else
      let normalized' :=
        if trailingSeparator then normalized ++ "/" else normalized in
      if absolute then "/" ++ normalized' else normalized'.

Definition join (paths : list string) : string :=
  match filter (fun p => negb (p =? "")) paths with
  | [] => "."
  | parts => normalize (String.concat "/" parts)
  end.

(** The named pieces of a resolved path. *)
Definition pieces_of (resolved : string) : list string :=
  filter (fun p => negb (p =? "")) (split resolved).

Fixpoint drop_common (from to : list string) : list string * list string :=
  match from, to with
  | f :: from', t :: to' =>
      if f =? t then drop_common from' to' else (from, to)
  | _, _ => (from, to)
  end.

(** [relative]: one ".." per piece of [from] below the common directory,
    then the pieces of [to] below it. *)
Definition relative (cwd from to : string) : string :=
  if from =? to then ""
  else
    let from' := resolve cwd [from] in
    let to' := resolve cwd [to] in
    if from' =? to' then ""
    else
      let '(up, down) := drop_common (pieces_of from') (pieces_of to') in
      String.concat "/" (map (fun _ => "..") up ++ down).

(** [dirname]: scanning from the end down to index 1, skip the trailing
    slashes, skip the last piece, and cut at the slash then met. *)
Definition dirname (path : string) : string :=
  match list_ascii_of_string path with
  | [] => "."
  | first :: tail =>
      let hasRoot := is_slash first in
      let before_piece :=
        drop_while (fun c => negb (is_slash c))
          (drop_while is_slash (rev tail)) in
      match before_piece with
      | [] => if hasRoot then "/" else "."
      | _ :: kept =>
          match kept with
          | [] => if hasRoot then "//"
                  else string_of_list_ascii [first]
          | _ => string_of_list_ascii (first :: rev kept)
          end
      end
  end.

(** The last piece of a path, trailing slashes set aside. *)
Definition last_piece (path : string) : string :=
  string_of_list_ascii
    (rev (take_while (fun c => negb (is_slash c))
            (drop_while is_slash (rev (list_ascii_of_string path))))).

Fixpoint strip_suffix_rev (suffix_rev piece_rev : list ascii)
  : option (list ascii) :=
  match suffix_rev, piece_rev with
  | [], _ => Some piece_rev
  | s :: suffix', c :: piece' =>
      if Ascii.eqb s c then strip_suffix_rev suffix' piece' else None
  | _ :: _, [] => None
  end.

(** [basename(path, suffix)]: the last piece, without [suffix] when the
    piece ends with it and is longer than it. *)
Definition basename (path : string) (suffix : string) : string :=
  let piece := last_piece path in
  if (suffix =? "") || (String.length path <? String.length suffix)%nat
  then piece
  else if suffix =? path then ""
  else
    match strip_suffix_rev (rev (list_ascii_of_string suffix))
            (rev (list_ascii_of_string piece)) with
    | Some (c :: stem_rev) => string_of_list_ascii (rev (c :: stem_rev))
    | _ => piece
    end.

(** [extname]: from the last dot of the last piece to its end; empty
    when the piece has no dot, starts at its only dot, or is "..". *)
Definition extname (path : string) : string :=
  let piece := last_piece path in
  let piece_rev := rev (list_ascii_of_string piece) in
  let after_dot_rev := take_while (fun c => negb (is_dot c)) piece_rev in
  match drop_while (fun c => negb (is_dot c)) piece_rev with
  | [] => ""
  | _ :: [] => ""
  | d :: _ :: _ =>
      if piece =? ".." then ""
      else string_of_list_ascii (d :: rev after_dot_rev)
  end.

(** A piece that names a file or a directory: not empty, not "." or
    "..", and free of slashes. *)
Definition is_plain (piece : string) : bool :=
  negb (piece =? "") && negb (piece =? ".") && negb (piece =? "..")
  && forallb (fun c => negb (is_slash c)) (list_ascii_of_string piece).

(** The absolute path made of the given pieces: [/p1/p2/.../pn]. *)
Definition absolute_of (pieces : list string) : string :=
  "/" ++ String.concat "/" pieces.

(** The file name [stem.ext]. *)
Definition with_ext (stem ext : string) : string := stem ++ "." ++ ext.

Definition slash_free (s : string) : Prop :=
  forallb (fun c => negb (is_slash c)) (list_ascii_of_string s) = true.

Definition dot_free (s : string) : Prop :=
  forallb (fun c => negb (is_dot c)) (list_ascii_of_string s) = true.

Definition nonempty (p : string) : bool := negb (p =? "").

(** What precedes the last slash of [absolute_of (d ++ [name])]. *)
Definition parent_text (d : list string) : string :=
  match d with
  | [] => ""
  | _ => absolute_of d
  end.

End Path.


(* ================================================================== *)
(** ** Results and exceptions *)
(* ================================================================== *)

Module Outcome.

(** A thrown JavaScript error: its constructor name and its message. *)
Inductive exn : Type := Exn (name message : string).

Inductive outcome (A : Type) : Type :=
| Returned (a : A)
| Thrown (e : exn).

Arguments Returned {A} a.
Arguments Thrown {A} e.

Definition obind {A B} (o : outcome A) (f : A -> outcome B) : outcome B :=
  match o with
  | Returned a => f a
  | Thrown e => Thrown e
  end.

Definition TypeError (message : string) : exn := Exn "TypeError" message.
Definition SyntaxError (message : string) : exn := Exn "SyntaxError" message.
Definition Error (message : string) : exn := Exn "Error" message.

(** Where the code passes a value to a function that validates a string
    argument ([node:path], [readFileSync]). *)
Definition as_string (v : value) : outcome string :=
  match v with
  | VStr s => Returned s
  | _ => Thrown (TypeError "The argument must be of type string")
  end.

End Outcome.

Export Outcome.

(* ================================================================== *)
(** ** strip-json-comments and JSON.parse *)
(* ================================================================== *)

(** [stripJsonComments] with its default options, and [JSON.parse] and
    [JSON.stringify] on JSON whose numbers are integers and whose
    strings use the single-character escapes.  Text outside that subset
    is reported as a [SyntaxError] by this model. *)
Module Json.

Definition is_space (c : ascii) : bool :=
  let n := nat_of_ascii c in
  ((9 <=? n) && (n <=? 13))%nat || (n =? 32)%nat.

Definition blank (c : ascii) : ascii := if is_space c then c else " "%char.

Inductive strip_state : Type :=
| Code          (* outside strings and comments *)
| InString
| LineComment
| BlockComment.

(** One pass over the characters.  [escaped] tells whether the run of
    backslashes just before the current character has odd length. *)
Fixpoint strip (st : strip_state) (escaped : bool) (cs : list ascii)
  : list ascii :=
  match cs with
  | [] => []
  | c :: rest =>
      let escaped' := if Ascii.eqb c "\"%char then negb escaped else false in
      match st with
      | Code =>
          if Ascii.eqb c "034"%char then
            c :: strip (if escaped then Code else InString) escaped' rest
          else
            match c, rest with
            | "/"%char, "/"%char :: rest' =>
                " "%char :: " "%char :: strip LineComment false rest'
            | "/"%char, "*"%char :: rest' =>
                " "%char :: " "%char :: strip BlockComment false rest'
            | _, _ => c :: strip Code escaped' rest
            end
      | InString =>
          if Ascii.eqb c "034"%char then
            c :: strip (if escaped then InString else Code) escaped' rest
          else c :: strip InString escaped' rest
      | LineComment =>
          if Ascii.eqb c "010"%char then c :: strip Code false rest
          else blank c :: strip LineComment false rest
      | BlockComment =>
          match c, rest with
          | "*"%char, "/"%char :: rest' =>
              " "%char :: " "%char :: strip Code false rest'
          | _, _ => blank c :: strip BlockComment false rest
          end
      end
  end.

Definition stripJsonComments (jsonString : string) : string :=
  string_of_list_ascii (strip Code false (list_ascii_of_string jsonString)).

Inductive token : Type :=
| TLBrace | TRBrace | TLBracket | TRBracket | TColon | TComma
| TString (s : string)
| TNumber (n : Z)
| TTrue | TFalse | TNull.

Definition is_digit (c : ascii) : bool :=
  let n := nat_of_ascii c in ((48 <=? n) && (n <=? 57))%nat.

Definition digit_value (c : ascii) : Z := Z.of_nat (nat_of_ascii c - 48).

Definition json_space (c : ascii) : bool :=
  let n := nat_of_ascii c in
  (n =? 32)%nat || (n =? 9)%nat || (n =? 10)%nat || (n =? 13)%nat.

(** The body of a string literal, after its opening quote. *)
Fixpoint lex_string (cs : list ascii) (acc : list ascii)
  : option (string * list ascii) :=
  match cs with
  | [] => None
  | c :: rest =>
      if Ascii.eqb c "034"%char then
        Some (string_of_list_ascii (rev acc), rest)
      else if Ascii.eqb c "\"%char then
        match rest with
        | e :: rest' =>
            let plain x := lex_string rest' (x :: acc) in
            match e with
            | "034"%char => plain "034"%char
            | "\"%char => plain "\"%char
            | "/"%char => plain "/"%char
            | "b"%char => plain "008"%char
            | "f"%char => plain "012"%char
            | "n"%char => plain "010"%char
            | "r"%char => plain "013"%char
            | "t"%char => plain "009"%char
            | _ => None
            end
        | [] => None
        end
      else if (nat_of_ascii c <? 32)%nat then None
      else lex_string rest (c :: acc)
  end.

Fixpoint lex_digits (cs : list ascii) (acc : Z) : Z * list ascii :=
  match cs with
  | c :: rest =>
      if is_digit c then lex_digits rest (10 * acc + digit_value c)
      else (acc, cs)
  | [] => (acc, [])
  end.

(** An integer literal: no leading zero, no fraction, no exponent. *)
Definition lex_number (negative : bool) (cs : list ascii)
  : option (Z * list ascii) :=
  match cs with
  | c :: rest =>
      if is_digit c then
        let '(n, rest') :=
          if Ascii.eqb c "0"%char then (0%Z, rest) else lex_digits cs 0 in
        match rest' with
        | d :: _ =>
            if is_digit d || Ascii.eqb d "."%char
               || Ascii.eqb d "e"%char || Ascii.eqb d "E"%char
            then None
            else Some (if negative then (- n)%Z else n, rest')
        | [] => Some (if negative then (- n)%Z else n, rest')
        end
      else None
  | [] => None
  end.

Fixpoint strip_prefix (word cs : list ascii) : option (list ascii) :=
  match word, cs with
  | [], _ => Some cs
  | w :: word', c :: cs' =>
      if Ascii.eqb w c then strip_prefix word' cs' else None
  | _ :: _, [] => None
  end.

Fixpoint tokenize (fuel : nat) (cs : list ascii) : option (list token) :=
  match fuel with
  | O => None
  | S fuel' =>
      match cs with
      | [] => Some []
      | c :: rest =>
          let punct t := option_map (cons t) (tokenize fuel' rest) in
          let word w t :=
            match strip_prefix (list_ascii_of_string w) cs with
            | Some rest' => option_map (cons t) (tokenize fuel' rest')
            | None => None
            end in
          let number negative digits :=
            match lex_number negative digits with
            | Some (n, rest') =>
                option_map (cons (TNumber n)) (tokenize fuel' rest')
            | None => None
            end in
          if json_space c then tokenize fuel' rest
          else
            match c with
            | "{"%char => punct TLBrace
            | "}"%char => punct TRBrace
            | "["%char => punct TLBracket
            | "]"%char => punct TRBracket
            | ":"%char => punct TColon
            | ","%char => punct TComma
            | "034"%char =>
                match lex_string rest [] with
                | Some (s, rest') =>
                    option_map (cons (TString s)) (tokenize fuel' rest')
                | None => None
                end
            | "t"%char => word "true" TTrue
            | "f"%char => word "false" TFalse
            | "n"%char => word "null" TNull
            | "-"%char => number true rest
            | _ => number false cs
            end
      end
  end.

(** Recursive descent over the tokens.  A repeated key keeps its first
    place and takes its last value. *)
Fixpoint parse_value (fuel : nat) (ts : list token)
  : option (value * list token) :=
  match fuel with
  | O => None
  | S fuel' =>
      let fix members (n : nat) (acc : object) (ts : list token)
        : option (value * list token) :=
        match n with
        | O => None
        | S n' =>
            match ts with
            | TString k :: TColon :: ts1 =>
                match parse_value fuel' ts1 with
                | Some (v, TComma :: ts2) => members n' (set_prop acc k v) ts2
                | Some (v, TRBrace :: ts2) => Some (VObj (set_prop acc k v), ts2)
                | _ => None
                end
            | _ => None
            end
        end in
      let fix elements (n : nat) (acc : list value) (ts : list token)
        : option (value * list token) :=
        match n with
        | O => None
        | S n' =>
            match parse_value fuel' ts with
            | Some (v, TComma :: ts1) => elements n' (v :: acc) ts1
            | Some (v, TRBracket :: ts1) => Some (VArr (rev (v :: acc)), ts1)
            | _ => None
            end
        end in
      match ts with
      | TString s :: ts' => Some (VStr s, ts')
      | TNumber n :: ts' => Some (VNum n, ts')
      | TTrue :: ts' => Some (VBool true, ts')
      | TFalse :: ts' => Some (VBool false, ts')
      | TNull :: ts' => Some (VNull, ts')
      | TLBrace :: TRBrace :: ts' => Some (VObj [], ts')
      | TLBrace :: ts' => members (List.length ts') [] ts'
      | TLBracket :: TRBracket :: ts' => Some (VArr [], ts')
      | TLBracket :: ts' => elements (List.length ts') [] ts'
      | _ => None
      end
  end.

Definition parse (text : string) : outcome value :=
  let cs := list_ascii_of_string text in
  match tokenize (S (List.length cs)) cs with
  | Some ts =>
      match parse_value (S (List.length ts)) ts with
      | Some (v, []) => Returned v
      | _ => Thrown (SyntaxError "Unexpected token in JSON")
      end
  | None => Thrown (SyntaxError "Unexpected token in JSON")
  end.

(** [JSON.stringify]: properties whose value is [undefined] are left
    out, an [undefined] array element is written [null]. *)
Definition hex_digit (n : nat) : ascii :=
  ascii_of_nat (if (n <? 10)%nat then 48 + n else 87 + n).

Definition escape_char (c : ascii) : list ascii :=
  let n := nat_of_ascii c in
  let bs := "\"%char in
  if Ascii.eqb c "034"%char then [bs; c]
  else if Ascii.eqb c bs then [bs; bs]
  else if (n =? 8)%nat then [bs; "b"%char]
  else if (n =? 9)%nat then [bs; "t"%char]
  else if (n =? 10)%nat then [bs; "n"%char]
  else if (n =? 12)%nat then [bs; "f"%char]
  else if (n =? 13)%nat then [bs; "r"%char]
  else if (n <? 32)%nat then
    [bs; "u"%char; "0"%char; "0"%char; hex_digit (n / 16); hex_digit (n mod 16)]
  else [c].

Definition quote (s : string) : string :=
  string_of_list_ascii
    ("034"%char
     :: flat_map escape_char (list_ascii_of_string s) ++ ["034"%char]).

Fixpoint stringify (v : value) : option string :=
  match v with
  | VUndef => None
  | VNull => Some "null"
  | VBool true => Some "true"
  | VBool false => Some "false"
  | VNum n => Some (NilZero.string_of_int (Z.to_int n))
  | VStr s => Some (quote s)
  | VArr items =>
      let fix elements (l : list value) : list string :=
        match l with
        | [] => []
        | x :: rest =>
            match stringify x with
            | Some t => t
            | None => "null"
            end :: elements rest
        end in
      Some ("[" ++ String.concat "," (elements items) ++ "]")
  | VObj props =>
      let fix members (l : list (string * value)) : list string :=
        match l with
        | [] => []
        | (k, x) :: rest =>
            match stringify x with
            | Some t => (quote k ++ ":" ++ t) :: members rest
            | None => members rest
            end
        end in
      Some ("{" ++ String.concat "," (members props) ++ "}")
  end.

End Json.


(* ================================================================== *)
(** ** Effects and collaborators *)
(* ================================================================== *)

Module Eff.

(** What a run does to the outside: console lines and file-system
    writes, in the order they happen. *)
Inductive event : Type :=
| ConsolaError (message : string) (error : exn)
| ConsolaSuccess (message : string)
| WriteFile (file data : string)
| RemoveTree (path : string).

(** A computation that has run: the events it emitted, then the value
    it returned or the error it threw (for an [async] function: the
    value its promise resolved to, or its rejection). *)
Definition M (A : Type) : Type := (list event * outcome A)%type.

Definition ret {A} (a : A) : M A := ([], Returned a).
Definition throw {A} (e : exn) : M A := ([], Thrown e).
Definition lift {A} (o : outcome A) : M A := ([], o).
Definition emit (ev : event) : M unit := ([ev], Returned tt).

Definition bind {A B} (m : M A) (f : A -> M B) : M B :=
  match m with
  | (t, Returned a) => let '(t', r) := f a in ((t ++ t')%list, r)
  | (t, Thrown e) => (t, Thrown e)
  end.

(** [try { m } catch (error) { handler error }] *)
Definition try_catch {A} (m : M A) (handler : exn -> M A) : M A :=
  match m with
  | (t, Thrown e) => let '(t', r) := handler e in ((t ++ t')%list, r)
  | done => done
  end.

Definition trace {A} (m : M A) : list event := fst m.
Definition result {A} (m : M A) : outcome A := snd m.

End Eff.

Export Eff.

Declare Scope eff_scope.
Delimit Scope eff_scope with eff.
Notation "x <- m ;; k" := (bind m (fun x => k))
  (at level 61, m at next level, right associativity) : eff_scope.
Notation "m ;; k" := (bind m (fun _ => k))
  (at level 61, right associativity) : eff_scope.
Notation "x <~ o ;; k" := (obind o (fun x => k))
  (at level 61, o at next level, right associativity) : eff_scope.

Module World.

(** What [oxc-transform] hands back for one file. *)
Record TransformResult : Type := {
  code : string;
  declaration : option string;
  map : option object;
  declarationMap : option object
}.

(** The collaborators of the loaders and of [pack].  Reads are answered
    from the file system as it is when the run starts. *)
Record World : Type := {
  cwd : string;
  readFileSync : string -> outcome string;
  existsSync : string -> bool;
  isDirectory : string -> bool;
  readdirSync : string -> list string;
  (** [globSync(patterns)] *)
  globSync : list string -> list string;
  (** [glob(patterns, {cwd, ignore, nodir: true, absolute: true})] *)
  glob : value -> value -> value -> outcome (list string);
  (** [import(specifier)]: the module namespace, or the error thrown
      while loading or evaluating the module *)
  import_module : string -> outcome value;
  (** [transform(file, code)] and [transformAsync(file, code, options)]
      of oxc-transform *)
  oxc_transform : string -> string -> TransformResult;
  oxc_transformAsync : string -> string -> object -> outcome TransformResult;
  (** [yaml.parse(code)] *)
  yaml_parse : string -> outcome value
}.

(** [v.k]: reading a property of [undefined] or [null] throws. *)
Definition member (v : value) (k : string) : outcome value :=
  match v with
  | VUndef | VNull =>
      Thrown (TypeError ("Cannot read properties of undefined (reading '"
                         ++ k ++ "')"))
  | _ => Returned (opt_get v k)
  end.

(** [encodeURIComponent] on UTF-8 text: every byte that is not an
    unreserved character becomes [%XX]. *)
Definition unreserved (c : ascii) : bool :=
  let n := nat_of_ascii c in
  ((48 <=? n) && (n <=? 57) || (65 <=? n) && (n <=? 90)
   || (97 <=? n) && (n <=? 122))%nat
  || existsb (Ascii.eqb c) (list_ascii_of_string "-_.!~*'()").

Definition upper_hex (n : nat) : ascii :=
  ascii_of_nat (if (n <? 10)%nat then 48 + n else 55 + n).

Definition encodeURIComponent (s : string) : string :=
  string_of_list_ascii
    (flat_map
       (fun c =>
          if unreserved c then [c]
          else let n := nat_of_ascii c in
               ["%"%char; upper_hex (n / 16); upper_hex (n mod 16)])
       (list_ascii_of_string s))%list.

(** [s.replaceAll("\\", "/")] *)
Definition backslashes_to_slashes (s : string) : string :=
  string_of_list_ascii
    (List.map (fun c => if Ascii.eqb c "\"%char then "/"%char else c)
       (list_ascii_of_string s)).

End World.

Export World.

(* ================================================================== *)
(** ** config.ts: locating and loading a configuration file *)
(* ================================================================== *)

Module Loader.
Section WithWorld.

Variable w : World.

Local Open Scope eff_scope.

(** config.ts, [detectOptionsFile]. *)
Definition detectOptionsFile (root : value) : outcome value :=
  root <~ (if negb (truthy root) then Returned (cwd w) else as_string root) ;;
  let root := backslashes_to_slashes root in
  let globPatterns :=
    [ root ++ "/library-pack.@(json|jsonc|json5|yaml|yml)";
      root ++ "/library-pack.config.@(ts|js|mts|cjs|mjs)" ] in
  Returned (match globSync w globPatterns with
            | first :: _ => (VStr first || VUndef)%js
            | [] => VUndef
            end).

(** config.ts, [loadJsonOptions]. *)
Definition loadJsonOptions (code : string) : outcome value :=
  raw <~ Json.parse (Json.stripJsonComments code) ;;
  Returned raw.

(** config.ts, [loadYamlOptions]. *)
Definition loadYamlOptions (code : string) : outcome value :=
  raw <~ yaml_parse w code ;;
  Returned (raw || VObj [])%js.

(** config.ts, [defineConfig]. *)
Definition defineConfig (config : value) : value := config.

(** config.ts, [loadJSOptions]. *)
Definition loadJSOptions (file : string) : M value :=
  try_catch
    (config <- lift (import_module w file) ;;
     default <- lift (member config "default") ;;
     ret (default || config)%js)
    (fun error =>
       emit (ConsolaError
               ("Failed to load JavaScript config from " ++ file ++ ":")
               error) ;;
       ret (VObj [])).

(** config.ts, [loadTSOptions]. *)
Definition loadTSOptions (file : string) : M value :=
  try_catch
    (code <- lift (readFileSync w file) ;;
     let result := oxc_transform w file code in
     if result.(World.code) =? "" then
       throw (Error "Failed to transform TypeScript to JavaScript")
     else
       let dataUrl :=
         "data:text/javascript;" ++
         "charset=utf-8," ++ encodeURIComponent result.(World.code) in
       config <- lift (import_module w dataUrl) ;;
       default <- lift (member config "default") ;;
       ret (default || config)%js)
    (fun error =>
       emit (ConsolaError
               ("Failed to load TypeScript config from " ++ file ++ ":")
               error) ;;
       ret (VObj [])).

Definition one_of (options : list string) (s : string) : bool :=
  existsb (String.eqb s) options.

(** config.ts, [loadOptionsFile]. *)
Definition loadOptionsFile (file : string) : M value :=
  code <- lift (readFileSync w file) ;;
  let ext := Path.extname file in
  if one_of [".json"; ".jsonc"; ".json5"] ext then
    lift (loadJsonOptions code)
  else if one_of [".yaml"; ".yml"] ext then
    lift (loadYamlOptions code)
  else if one_of [".ts"; ".mts"] ext then
    loadTSOptions file
  else if one_of [".js"; ".cjs"; ".mjs"] ext then
    loadJSOptions file
  else ret (VObj []).

(** [path?.k] for an optional object argument. *)
Definition arg_get (path : option object) (k : string) : value :=
  match path with
  | Some o => get_prop o k
  | None => VUndef
  end.

(** config.ts, [loadOptions]. *)
Definition loadOptions (path : option object) : M value :=
  file <- (if truthy (arg_get path "file") then ret (arg_get path "file")
           else lift (detectOptionsFile (arg_get path "root"))) ;;
  if negb (truthy file) then ret (VObj [])
  else
    file <- lift (as_string file) ;;
    loadOptionsFile file.

(** The specifier [loadTSOptions] imports for transformed [code]. *)
Definition data_url (code : string) : string :=
  "data:text/javascript;" ++ "charset=utf-8," ++ encodeURIComponent code.

(** Evaluating the configuration script [file], whose text is [code],
    throws [e]: for a JavaScript file the import of the file itself, for
    a TypeScript file the import of its transformed code. *)
Definition script_evaluation_throws (file code : string) (e : exn) : Prop :=
  (one_of [".js"; ".cjs"; ".mjs"] (Path.extname file) = true /\
   import_module w file = Thrown e) \/
  (one_of [".ts"; ".mts"] (Path.extname file) = true /\
   (oxc_transform w file code).(World.code) <> "" /\
   import_module w (data_url (oxc_transform w file code).(World.code))
   = Thrown e).

End WithWorld.
End Loader.

Export Loader.


(* ================================================================== *)
(** ** utils.ts and index.ts: transform, pack, run *)
(* ================================================================== *)

Module Pack.
Section WithWorld.

Variable w : World.

Local Open Scope eff_scope.

(** utils.ts, [maybeWriteFile]. *)
Definition maybeWriteFile (file : string) (data : option string) : M unit :=
  match data with
  | None => ret tt
  | Some data => emit (WriteFile file data)
  end.

Fixpoint for_each {A} (f : A -> M unit) (l : list A) : M unit :=
  match l with
  | [] => ret tt
  | x :: rest => f x ;; for_each f rest
  end.

(** utils.ts, [maybeEmptyDir].  [existsSync] answers [false] for an
    argument that is not a path. *)
Definition maybeEmptyDir (dir : value) : M unit :=
  match dir with
  | VStr dir =>
      if negb (dir =? "") && existsSync w dir && isDirectory w dir then
        for_each (fun item => emit (RemoveTree (Path.join [dir; item])))
          (readdirSync w dir)
      else ret tt
  | _ => ret tt
  end.

Record OutputPaths : Type := {
  outfileDir : string;
  outBase : string
}.

(** index.ts, [transform], lines 27-32: where the outputs of [file] go. *)
Definition output_paths (file : string) (options : object)
  : outcome OutputPaths :=
  srcdir_arg <~ as_string (get_prop options "srcdir" || VStr "src")%js ;;
  let srcdir := Path.resolve (cwd w) [srcdir_arg] in
  outdir_arg <~ as_string (get_prop options "outdir" || VStr "out")%js ;;
  let outdir := Path.resolve (cwd w) [outdir_arg] in
  let outfile := Path.join [outdir; Path.relative (cwd w) srcdir file] in
  let outfileDir := Path.dirname outfile in
  let outname := Path.basename outfile (Path.extname outfile) in
  let outBase := Path.join [outfileDir; outname] in
  Returned {| outfileDir := outfileDir; outBase := outBase |}.

Fixpoint relative_sources (outfileDir : string) (sources : list value)
  : outcome (list value) :=
  match sources with
  | [] => Returned []
  | s :: rest =>
      s <~ as_string s ;;
      rest <~ relative_sources outfileDir rest ;;
      Returned (VStr (Path.relative (cwd w) outfileDir s) :: rest)
  end.

(** index.ts, [transform], the inner [resolveSourceMap]. *)
Definition resolveSourceMap (outfileDir : string) (raw : option object)
  : outcome (option string) :=
  match raw with
  | None => Returned None
  | Some raw =>
      match get_prop raw "sources" with
      | VArr sources =>
          sources <~ relative_sources outfileDir sources ;;
          Returned
            (Json.stringify
               (VObj (object_literal (spread (VObj raw))
                        [ ("sources", VArr sources);
                          ("sourcesContent", VUndef) ])))
      | _ => Thrown (TypeError "raw.sources.map is not a function")
      end
  end.

(** index.ts, [transform], up to its [await]: runs when the function is
    called. *)
Definition transform_start (file : string) (options : object)
  : outcome (OutputPaths * string) :=
  paths <~ output_paths file options ;;
  code <~ readFileSync w file ;;
  Returned (paths, code).

(** index.ts, [transform], from its [await] on. *)
Definition transform_finish (file : string) (options : object)
    (started : OutputPaths * string) : M unit :=
  let '(paths, code) := started in
  result <- lift (oxc_transformAsync w file code options) ;;
  emit (WriteFile (paths.(outBase) ++ ".js") result.(World.code)) ;;
  maybeWriteFile (paths.(outBase) ++ ".d.ts") result.(declaration) ;;
  js_map <- lift (resolveSourceMap paths.(outfileDir) result.(map)) ;;
  maybeWriteFile (paths.(outBase) ++ ".js.map") js_map ;;
  dts_map <- lift (resolveSourceMap paths.(outfileDir)
                     result.(declarationMap)) ;;
  maybeWriteFile (paths.(outBase) ++ ".d.ts.map") dts_map ;;
  emit (ConsolaSuccess ("Transformed " ++ file)).

(** index.ts, [transform]. *)
Definition transform (file : string) (options : object) : M unit :=
  started <- lift (transform_start file options) ;;
  transform_finish file options started.

(** [await Promise.all(files.map(start))]: every call runs up to its
    [await] first, then the pending ones finish, here in file order.
    The promise rejects with the earliest rejection, and the other
    transforms still run to their end. *)
Definition first_thrown (outcomes : list (outcome unit)) : outcome unit :=
  match filter (fun o => match o with Thrown _ => true | _ => false end)
          outcomes with
  | failure :: _ => failure
  | [] => Returned tt
  end.

Definition promise_all {A} (start : A -> outcome (M unit)) (items : list A)
  : M unit :=
  let started := List.map start items in
  let rejected_at_once :=
    flat_map (fun s => match s with
                       | Thrown e => [Thrown e]
                       | Returned _ => []
                       end) started in
  let finished :=
    flat_map (fun s => match s with
                       | Thrown _ => []
                       | Returned m => [m]
                       end) started in
  (flat_map trace finished,
   first_thrown (rejected_at_once ++ List.map result finished)%list).

(** index.ts, [pack], on an options object. *)
Definition pack_object (options : object) : M unit :=
  let resolvedOptions := resolveOptions options in
  files <- lift (glob w
                   (get_prop resolvedOptions "includes" || VArr [])%js
                   (get_prop resolvedOptions "srcdir")
                   (get_prop resolvedOptions "excludes")) ;;
  (if truthy (get_prop resolvedOptions "emptyOutdir")
   then maybeEmptyDir (get_prop resolvedOptions "outdir")
   else ret tt) ;;
  promise_all
    (fun file =>
       started <~ transform_start file resolvedOptions ;;
       Returned (transform_finish file resolvedOptions started))
    files.

(** index.ts, [pack].  Its parameter is typed [PackOptions], yet the
    loaders hand it whatever the configuration file holds: on [null] or
    [undefined] the first property read throws; a boolean or a number
    has no properties and spreads to nothing.  A string or an array in
    place of the options is outside what this model follows and is
    reported as a type error. *)
Definition pack (options : value) : M unit :=
  match options with
  | VObj o => pack_object o
  | VBool _ | VNum _ => pack_object []
  | VUndef | VNull =>
      throw (TypeError "Cannot read properties of undefined (reading 'srcdir')")
  | VStr _ | VArr _ => throw (TypeError "options is not a PackOptions object")
  end.

(** index.ts, [run]. *)
Definition run (options : option object) : M unit :=
  if truthy (arg_get options "file" || arg_get options "root")%js then
    loaded <- loadOptions w options ;;
    pack loaded
  else
    match options with
    | None =>
        loaded <- loadOptions w (Some [("root", VStr (cwd w))]) ;;
        pack loaded
    | Some o =>
        if (List.length o =? 0)%nat then
          loaded <- loadOptions w (Some [("root", VStr (cwd w))]) ;;
          pack loaded
        else pack (VObj o)
    end.

End WithWorld.

(** Two worlds [pack] cannot tell apart.  They may still differ in what
    a search for a configuration file finds ([globSync]), in what an
    [import] loads, in the synchronous transformer and in the YAML
    parser: the collaborators only [detectOptionsFile] and the loaders
    call. *)
Definition same_for_pack (w w' : World) : Prop :=
  cwd w = cwd w' /\
  readFileSync w = readFileSync w' /\
  existsSync w = existsSync w' /\
  isDirectory w = isDirectory w' /\
  readdirSync w = readdirSync w' /\
  glob w = glob w' /\
  oxc_transformAsync w = oxc_transformAsync w'.

End Pack.

Export Pack.


(* ================================================================== *)
(** ** A world to run the code in *)
(* ================================================================== *)

(** [yaml.parse] on the documents a flat configuration file is made of:
    a document with no content (blank lines, comments, document
    markers) or the scalar [null] or [~] is [null]; lines [key: value]
    with plain or double-quoted scalars make an object.  Anything else
    is outside this model and reported as an error. *)
Module Yaml.

Definition newline : ascii := "010"%char.
Definition space : ascii := " "%char.

Fixpoint lines_of (cs : list ascii) (current : list ascii)
  : list (list ascii) :=
  match cs with
  | [] => [rev current]
  | c :: rest =>
      if Ascii.eqb c newline then rev current :: lines_of rest []
      else lines_of rest (c :: current)
  end.

(** A comment starts at a [#] that opens the line or follows a blank,
    outside double quotes. *)
Fixpoint cut_comment (quoted after_blank : bool) (cs : list ascii)
  : list ascii :=
  match cs with
  | [] => []
  | c :: rest =>
      if Ascii.eqb c "#"%char && negb quoted && after_blank then []
      else
        c :: cut_comment
               (if Ascii.eqb c "034"%char then negb quoted else quoted)
               (Json.is_space c) rest
  end.

Definition trim_right (cs : list ascii) : list ascii :=
  rev (Path.drop_while Json.is_space (rev cs)).

Definition trim (cs : list ascii) : list ascii :=
  Path.drop_while Json.is_space (trim_right cs).

Definition content_lines (code : string) : list (list ascii) :=
  filter
    (fun l => negb (match trim l with
                    | [] => true
                    | t => let s := string_of_list_ascii t in
                           (s =? "---") || (s =? "...")
                    end))
    (List.map (fun l => trim_right (cut_comment false true l))
       (lines_of (list_ascii_of_string code) [])).

Definition scalar (cs : list ascii) : option value :=
  match cs with
  | [] => Some VNull
  | q :: rest =>
      if Ascii.eqb q "034"%char then
        match rev rest with
        | q' :: body_rev =>
            if Ascii.eqb q' "034"%char
               && negb (existsb (fun c => Ascii.eqb c "034"%char
                                          || Ascii.eqb c "\"%char) body_rev)
            then Some (VStr (string_of_list_ascii (rev body_rev)))
            else None
        | [] => None
        end
      else
        let s := string_of_list_ascii cs in
        if (s =? "null") || (s =? "~") then Some VNull
        else if s =? "true" then Some (VBool true)
        else if s =? "false" then Some (VBool false)
        else if existsb (fun c => existsb (Ascii.eqb c)
                                    (list_ascii_of_string "[]{}:,&*!|>'%@`-"))
                  [q]
                || Json.is_digit q
        then None
        else if existsb (fun c => Ascii.eqb c ":"%char) cs then None
        else Some (VStr s)
  end.

Definition entry (line : list ascii) : option (string * value) :=
  let key := Path.take_while (fun c => negb (Ascii.eqb c ":"%char)) line in
  match Path.drop_while (fun c => negb (Ascii.eqb c ":"%char)) line with
  | _ :: rest =>
      match key, rest with
      | [], _ => None
      | k :: _, sp :: _ =>
          if Json.is_space k || negb (Json.is_space sp) then None
          else option_map (fun v => (string_of_list_ascii (trim key), v))
                 (scalar (trim rest))
      | k :: _, [] =>
          if Json.is_space k then None
          else Some (string_of_list_ascii (trim key), VNull)
      end
  | [] => None
  end.

Fixpoint entries (ls : list (list ascii)) (acc : object) : option object :=
  match ls with
  | [] => Some acc
  | l :: rest =>
      match entry l with
      | Some (k, v) =>
          match lookup acc k with
          | Some _ => None
          | None => entries rest (set_prop acc k v)
          end
      | None => None
      end
  end.

Definition parse (code : string) : outcome value :=
  let unsupported :=
    Thrown (Error "YAML outside the flat documents of this model") in
  match content_lines code with
  | [] => Returned VNull
  | [l] =>
      match scalar (trim l) with
      | Some VNull => Returned VNull
      | _ => match entries [l] [] with
             | Some o => Returned (VObj o)
             | None => unsupported
             end
      end
  | ls => match entries ls [] with
          | Some o => Returned (VObj o)
          | None => unsupported
          end
  end.

End Yaml.

Module Sample.

(** A file system by its files, the modules an [import] can load, and
    the files a glob over the sources finds. *)
Record Disk : Type := {
  disk_cwd : string;
  disk_files : list (string * string);
  disk_modules : list (string * outcome value);
  disk_sources : list string
}.

Fixpoint assoc {A} (l : list (string * A)) (k : string) : option A :=
  match l with
  | [] => None
  | (k', a) :: rest => if k =? k' then Some a else assoc rest k
  end.

(** [root/name.@(a|b|c)] written out: one path per alternative. *)
Definition alternatives (pattern : string) : list string :=
  let cs := list_ascii_of_string pattern in
  let before := Path.take_while (fun c => negb (Ascii.eqb c "@"%char)) cs in
  match Path.drop_while (fun c => negb (Ascii.eqb c "@"%char)) cs with
  | _ :: _ :: group =>
      let inner := Path.take_while (fun c => negb (Ascii.eqb c ")"%char)) group in
      let fix pieces (cs current : list ascii) : list string :=
        match cs with
        | [] => [string_of_list_ascii (before ++ rev current)%list]
        | c :: rest =>
            if Ascii.eqb c "|"%char
            then string_of_list_ascii (before ++ rev current)%list
                 :: pieces rest []
            else pieces rest (c :: current)
        end in
      pieces inner []
  | _ => [pattern]
  end.

Definition has_file (d : Disk) (path : string) : bool :=
  match assoc d.(disk_files) path with Some _ => true | None => false end.

Definition under (dir path : string) : bool :=
  String.prefix (dir ++ "/") path.

Definition absolute (d : Disk) (path : string) : string :=
  Path.resolve d.(disk_cwd) [path].

Definition plain (code : string) : TransformResult :=
  {| code := code; declaration := None; map := None; declarationMap := None |}.

Local Open Scope eff_scope.

Definition world_of (d : Disk) : World :=
  {| cwd := d.(disk_cwd);
     readFileSync := fun file =>
       match assoc d.(disk_files) file with
       | Some text => Returned text
       | None => Thrown (Error ("ENOENT: no such file or directory, open '"
                                ++ file ++ "'"))
       end;
     existsSync := fun path =>
       let path := absolute d path in
       has_file d path
       || existsb (fun f => under path (fst f)) d.(disk_files);
     isDirectory := fun path =>
       existsb (fun f => under (absolute d path) (fst f)) d.(disk_files);
     readdirSync := fun dir =>
       let dir := absolute d dir in
       nodup string_dec
         (flat_map
            (fun f =>
               if under dir (fst f) then
                 match Path.pieces_of
                         (substring (String.length dir)
                            (String.length (fst f)) (fst f)) with
                 | name :: _ => [name]
                 | [] => []
                 end
               else [])
            d.(disk_files));
     globSync := fun patterns =>
       filter (has_file d) (flat_map alternatives patterns);
     glob := fun _ dir _ =>
       dir <~ as_string dir ;;
       Returned (filter (under (absolute d dir)) d.(disk_sources));
     import_module := fun specifier =>
       match assoc d.(disk_modules) specifier with
       | Some loaded => loaded
       | None => Thrown (Error ("Cannot find module '" ++ specifier ++ "'"))
       end;
     oxc_transform := fun _ code => plain code;
     oxc_transformAsync := fun _ code _ => Returned (plain code);
     yaml_parse := Yaml.parse |}.

Definition nl : string := String "010"%char "".
Definition dq : string := String "034"%char "".

(** A JSON configuration with a line comment and the single key srcdir. *)
Definition jsonc_text : string :=
  "{" ++ nl ++
  "  // note" ++ nl ++
  "  " ++ dq ++ "srcdir" ++ dq ++ ": " ++ dq ++ "source" ++ dq ++ nl ++
  "}".

(** A configuration script that throws while it is evaluated. *)
Definition broken_script : string := "throw new Error('boom')".

Definition boom : exn := Error "boom".

Definition disk : Disk :=
  {| disk_cwd := "/proj";
     disk_files :=
       [ ("/proj/library-pack.jsonc", jsonc_text);
         ("/proj/yaml/library-pack.yaml", "# nothing set" ++ nl);
         ("/proj/js/library-pack.config.mjs", broken_script);
         ("/proj/ts/library-pack.config.ts", broken_script);
         ("/proj/src/a/b.ts", "export const b: number = 1") ];
     disk_modules :=
       [ ("/proj/js/library-pack.config.mjs", Thrown boom);
         ("data:text/javascript;charset=utf-8,"
            ++ encodeURIComponent broken_script, Thrown boom) ];
     disk_sources := ["/proj/src/a/b.ts"] |}.

Definition world : World := world_of disk.

(** The same files seen from the directory of the JavaScript
    configuration script. *)
Definition script_world : World :=
  world_of {| disk_cwd := "/proj/js";
              disk_files := disk.(disk_files);
              disk_modules := disk.(disk_modules);
              disk_sources := disk.(disk_sources) |}.

(** The same world for [pack], with every search for a configuration
    file coming back empty and every loader collaborator failing. *)
Definition no_config_world : World :=
  {| cwd := cwd world;
     readFileSync := readFileSync world;
     existsSync := existsSync world;
     isDirectory := isDirectory world;
     readdirSync := readdirSync world;
     globSync := fun _ => [];
     glob := glob world;
     import_module := fun _ => Thrown (Error "no module can be loaded");
     oxc_transform := fun _ _ => plain "";
     oxc_transformAsync := oxc_transformAsync world;
     yaml_parse := fun _ => Thrown (Error "no YAML can be parsed") |}.

(** Options with explicit values, some of them falsy. *)
Definition explicit_sample : object :=
  [ ("srcdir", VStr "lib");
    ("includes", VArr []);
    ("emptyOutdir", VBool false);
    ("sourcemap", VBool false);
    ("typescript", VObj [("allowNamespaces", VBool false)]) ].

(** Options that carry a transform-options block. *)
Definition transform_sample : object :=
  [ ("target", VStr "es2020");
    ("typescript",
      VObj [ ("allowNamespaces", VBool true);
             ("declaration",
               VObj [("stripInternal", VBool true);
                     ("sourcemap", VBool false)]) ]) ].

End Sample.


(* ================================================================== *)
(** ** Vocabulary for the statements about loading and packing *)
(* ================================================================== *)

Module Cases.

Definition is_removal (ev : event) : bool :=
  match ev with
  | RemoveTree _ => true
  | _ => false
  end.

(** What [maybeWriteFile file data] leaves in the trace. *)
Definition written (file : string) (data : option string) : list event :=
  match data with
  | Some data => [WriteFile file data]
  | None => []
  end.

(** The extensions [loadOptionsFile] has a case for. *)
Definition known_extensions : list string :=
  [".json"; ".jsonc"; ".json5"; ".yaml"; ".yml";
   ".ts"; ".mts"; ".js"; ".cjs"; ".mjs"].

(** The two patterns [detectOptionsFile] searches under [root]. *)
Definition config_patterns (root : string) : list string :=
  [ root ++ "/library-pack.@(json|jsonc|json5|yaml|yml)";
    root ++ "/library-pack.config.@(ts|js|mts|cjs|mjs)" ].

(** The test of [maybeEmptyDir] on a path. *)
Definition can_empty (w : World) (dir : string) : bool :=
  negb (dir =? "") && existsSync w dir && isDirectory w dir.

(** One removal per entry of [dir]. *)
Definition removals (w : World) (dir : string) : list event :=
  List.map (fun item => RemoveTree (Path.join [dir; item]))
    (readdirSync w dir).

(** The keys of an object, in order. *)
Definition keys (o : object) : list string := List.map fst o.


Section WithWorld.

Variable w : World.

(** What [transform] does once the transformer has answered [r]: the
    code and the declaration are written before either map is
    rendered. *)
Definition finished_with (file : string) (paths : OutputPaths)
    (r : TransformResult) : M unit :=
  let first_writes :=
    WriteFile (outBase paths ++ ".js") (World.code r)
    :: written (outBase paths ++ ".d.ts") (declaration r) in
  match resolveSourceMap w (outfileDir paths) (map r) with
  | Thrown e => (first_writes, Thrown e)
  | Returned js_map =>
      match resolveSourceMap w (outfileDir paths) (declarationMap r) with
      | Thrown e =>
          ((first_writes ++ written (outBase paths ++ ".js.map") js_map)%list,
           Thrown e)
      | Returned dts_map =>
          ((first_writes
            ++ written (outBase paths ++ ".js.map") js_map
            ++ written (outBase paths ++ ".d.ts.map") dts_map
            ++ [ConsolaSuccess ("Transformed " ++ file)])%list,
           Returned tt)
      end
  end.

(** The promise a call of [transform] inside [pack] starts. *)
Definition started_transform (options : object) (file : string)
  : outcome (M unit) :=
  obind (transform_start w file options)
    (fun started => Returned (transform_finish w file options started)).

(** What [pack] removes before it transforms. *)
Definition emptying (options : object) : list event :=
  if truthy (get_prop options "emptyOutdir")
  then trace (maybeEmptyDir w (get_prop (resolveOptions options) "outdir"))
  else [].

(** The files [pack] finds for [options]. *)
Definition found_files (options : object) : outcome (list string) :=
  glob w (get_prop (resolveOptions options) "includes")
    (get_prop (resolveOptions options) "srcdir")
    (get_prop (resolveOptions options) "excludes").

End WithWorld.



(** A project with an output directory that already holds files. *)
Definition built_disk : Sample.Disk :=
  {| Sample.disk_cwd := "/proj";
     Sample.disk_files :=
       [ ("/proj/src/a/b.ts", "export const b: number = 1");
         ("/proj/src/Makefile", "all:");
         ("/proj/out/a/b.js", "export const b = 1");
         ("/proj/out/old.js", "stale") ];
     Sample.disk_modules := [];
     Sample.disk_sources := ["/proj/src/a/b.ts"; "/proj/src/Makefile"] |}.

Definition built_world : World := Sample.world_of built_disk.


(** [built_world] with a transformer that answers [answer]. *)
Definition with_transformer (answer : outcome TransformResult) : World :=
  {| cwd := cwd built_world;
     readFileSync := readFileSync built_world;
     existsSync := existsSync built_world;
     isDirectory := isDirectory built_world;
     readdirSync := readdirSync built_world;
     globSync := globSync built_world;
     glob := glob built_world;
     import_module := import_module built_world;
     oxc_transform := oxc_transform built_world;
     oxc_transformAsync := fun _ _ _ => answer;
     yaml_parse := yaml_parse built_world |}.



(** [built_world] with a glob that fails. *)
Definition glob_failing_world : World :=
  {| cwd := cwd built_world;
     readFileSync := readFileSync built_world;
     existsSync := existsSync built_world;
     isDirectory := isDirectory built_world;
     readdirSync := readdirSync built_world;
     globSync := globSync built_world;
     glob := fun _ _ _ => Thrown (Error "EACCES: permission denied, scandir");
     import_module := import_module built_world;
     oxc_transform := oxc_transform built_world;
     oxc_transformAsync := oxc_transformAsync built_world;
     yaml_parse := yaml_parse built_world |}.

End Cases.


(* ================================================================== *)
(** * Properties *)
(* ================================================================== *)

(** ** Property lists *)

Section ObjectFacts.

Lemma lookup_set_same (o : object) (k : string) (v : value) :
  lookup (set_prop o k v) k = Some v.
Proof.
  induction o as [|[k' v'] rest IH]; simpl.
  - now rewrite String.eqb_refl.
  - destruct (String.eqb k k') eqn:E; simpl; rewrite E; auto.
Qed.

Lemma lookup_set_other (o : object) (k k' : string) (v : value) :
  k <> k' -> lookup (set_prop o k v) k' = lookup o k'.
Proof.
  intros Hne.
  induction o as [|[k0 v0] rest IH]; simpl.
  - destruct (String.eqb_spec k' k); congruence.
  - destruct (String.eqb_spec k k0) as [->|Hk]; simpl.
    + destruct (String.eqb_spec k' k0); congruence.
    + now rewrite IH.
Qed.

Lemma set_prop_same_value (o : object) (k : string) (v : value) :
  lookup o k = Some v -> set_prop o k v = o.
Proof.
  induction o as [|[k' v'] rest IH]; simpl; [discriminate|].
  destruct (String.eqb_spec k k') as [->|Hk]; intros H.
  - congruence.
  - now rewrite IH.
Qed.

Lemma get_set_same (o : object) (k : string) (v : value) :
  get_prop (set_prop o k v) k = v.
Proof. unfold get_prop. now rewrite lookup_set_same. Qed.

Lemma get_set_other (o : object) (k k' : string) (v : value) :
  k <> k' -> get_prop (set_prop o k v) k' = get_prop o k'.
Proof. intros. unfold get_prop. now rewrite lookup_set_other. Qed.

Lemma truthy_or_else_l (a b : value) :
  truthy a = true -> (a || b)%js = a.
Proof. unfold or_else. now intros ->. Qed.

Lemma truthy_or_else_r (a b : value) :
  truthy a = false -> (a || b)%js = b.
Proof. unfold or_else. now intros ->. Qed.

Lemma or_else_truthy (a b : value) :
  truthy b = true -> truthy (a || b)%js = true.
Proof. unfold or_else. destruct (truthy a) eqn:E; auto. Qed.

End ObjectFacts.

(** Reading a key back through the chain of writes of an object
    literal whose keys are literals. *)
Ltac read_back :=
  repeat first
    [ rewrite lookup_set_same
    | rewrite lookup_set_other by discriminate
    | rewrite get_set_same
    | rewrite get_set_other by discriminate ].

(** ** resolveOptions *)

Section ResolveFacts.

Variable p : object.

Lemma resolved_declaration_truthy : truthy (resolved_declaration p) = true.
Proof. unfold resolved_declaration. now apply or_else_truthy. Qed.

Lemma resolve_srcdir :
  lookup (resolveOptions p) "srcdir"
  = Some (get_prop p "srcdir" || VStr "src")%js.
Proof. unfold resolveOptions, object_literal; simpl. now read_back. Qed.

Lemma resolve_outdir :
  lookup (resolveOptions p) "outdir"
  = Some (get_prop p "outdir" || VStr "out")%js.
Proof. unfold resolveOptions, object_literal; simpl. now read_back. Qed.

Lemma resolve_includes :
  lookup (resolveOptions p) "includes"
  = Some (get_prop p "includes" || strs ["**/*.ts"])%js.
Proof. unfold resolveOptions, object_literal; simpl. now read_back. Qed.

Lemma resolve_excludes :
  lookup (resolveOptions p) "excludes"
  = Some (get_prop p "excludes" || strs default_excludes)%js.
Proof. unfold resolveOptions, object_literal; simpl. now read_back. Qed.

Lemma resolve_sourcemap :
  lookup (resolveOptions p) "sourcemap"
  = Some (get_prop p "sourcemap" || VBool true)%js.
Proof. unfold resolveOptions, object_literal; simpl. now read_back. Qed.

Lemma resolve_typescript :
  lookup (resolveOptions p) "typescript" = Some (resolved_typescript p).
Proof. unfold resolveOptions, object_literal; simpl. now read_back. Qed.

Lemma resolve_other (k : string) :
  ~ In k resolved_keys ->
  lookup (resolveOptions p) k = lookup p k.
Proof.
  intros Hk. unfold resolveOptions, object_literal; simpl.
  repeat (rewrite lookup_set_other
            by (intros <-; apply Hk; simpl; tauto)).
  reflexivity.
Qed.

End ResolveFacts.

Lemma resolveOptions_unfold (o : object) :
  resolveOptions o =
  set_prop
   (set_prop
     (set_prop
       (set_prop
         (set_prop
           (set_prop o
              "srcdir" (get_prop o "srcdir" || VStr "src")%js)
            "outdir" (get_prop o "outdir" || VStr "out")%js)
          "includes" (get_prop o "includes" || strs ["**/*.ts"])%js)
        "excludes" (get_prop o "excludes" || strs default_excludes)%js)
      "sourcemap" (get_prop o "sourcemap" || VBool true)%js)
    "typescript" (resolved_typescript o).
Proof. reflexivity. Qed.

Lemma get_of_lookup (o : object) (k : string) (v : value) :
  lookup o k = Some v -> get_prop o k = v.
Proof. unfold get_prop. now intros ->. Qed.

Section Idempotence.

Variable p : object.

Lemma rewrite_same (k : string) (v d : value) :
  lookup (resolveOptions p) k = Some v -> truthy v = true ->
  set_prop (resolveOptions p) k (get_prop (resolveOptions p) k || d)%js
  = resolveOptions p.
Proof.
  intros Hl Ht.
  rewrite (get_of_lookup _ _ _ Hl), truthy_or_else_l by assumption.
  now apply set_prop_same_value.
Qed.

Lemma resolved_typescript_stable :
  resolved_typescript (resolveOptions p) = resolved_typescript p.
Proof.
  unfold resolved_typescript at 1, resolved_declaration at 1.
  rewrite (get_of_lookup _ _ _ (resolve_typescript p)).
  unfold resolved_typescript at 1 2 3; simpl opt_get; simpl spread.
  rewrite get_set_same.
  rewrite truthy_or_else_l by apply resolved_declaration_truthy.
  rewrite set_prop_same_value by apply lookup_set_same.
  reflexivity.
Qed.

Lemma resolveOptions_fixpoint :
  resolveOptions (resolveOptions p) = resolveOptions p.
Proof.
  rewrite (resolveOptions_unfold (resolveOptions p)).
  rewrite (rewrite_same _ _ _ (resolve_srcdir p))
    by now apply or_else_truthy.
  rewrite (rewrite_same _ _ _ (resolve_outdir p))
    by now apply or_else_truthy.
  rewrite (rewrite_same _ _ _ (resolve_includes p))
    by now apply or_else_truthy.
  rewrite (rewrite_same _ _ _ (resolve_excludes p))
    by now apply or_else_truthy.
  rewrite (rewrite_same _ _ _ (resolve_sourcemap p))
    by now apply or_else_truthy.
  rewrite resolved_typescript_stable.
  apply set_prop_same_value, resolve_typescript.
Qed.

End Idempotence.

(* ------------------------------------------------------------------ *)
(** ** The effect monad and the loaders *)
(* ------------------------------------------------------------------ *)

Section LoaderFacts.

Variable w : World.

Local Open Scope eff_scope.

Lemma bind_lift_returned {A B} (o : outcome A) (a : A) (f : A -> M B) :
  o = Returned a -> (x <- lift o ;; f x) = f a.
Proof. intros ->. unfold bind, lift. now destruct (f a). Qed.

Lemma bind_lift_thrown {A B} (o : outcome A) (e : exn) (f : A -> M B) :
  o = Thrown e -> (x <- lift o ;; f x) = throw e.
Proof. now intros ->. Qed.

Lemma bind_ret {A B} (a : A) (f : A -> M B) : (x <- ret a ;; f x) = f a.
Proof. unfold bind, ret. now destruct (f a). Qed.

Lemma bind_logged {A B} (t : list event) (a : A) (f : A -> M B) :
  (x <- (t, Returned a) ;; f x) = ((t ++ trace (f a))%list, result (f a)).
Proof. unfold bind, trace, result. now destruct (f a). Qed.

(** An import that throws makes [loadJSOptions] log and return [{}]. *)
Lemma loadJSOptions_import_throws (file : string) (e : exn) :
  import_module w file = Thrown e ->
  loadJSOptions w file
  = ([ConsolaError ("Failed to load JavaScript config from " ++ file ++ ":") e],
     Returned (VObj [])).
Proof.
  intros H. unfold loadJSOptions.
  now rewrite (bind_lift_thrown _ _ _ H).
Qed.

Lemma loadTSOptions_import_throws (file code : string) (e : exn) :
  readFileSync w file = Returned code ->
  (oxc_transform w file code).(World.code) <> "" ->
  import_module w (data_url (oxc_transform w file code).(World.code))
  = Thrown e ->
  loadTSOptions w file
  = ([ConsolaError ("Failed to load TypeScript config from " ++ file ++ ":") e],
     Returned (VObj [])).
Proof.
  intros Hread Hcode Himport. unfold loadTSOptions.
  rewrite (bind_lift_returned _ _ _ Hread).
  destruct (String.eqb_spec (World.code (oxc_transform w file code)) "")
    as [Heq | _]; [contradiction|].
  unfold data_url in Himport.
  now rewrite (bind_lift_thrown _ _ _ Himport).
Qed.

(** A transform that yields no code is caught the same way. *)
Lemma loadTSOptions_no_code (file code : string) :
  readFileSync w file = Returned code ->
  (oxc_transform w file code).(World.code) = "" ->
  loadTSOptions w file
  = ([ConsolaError ("Failed to load TypeScript config from " ++ file ++ ":")
        (Error "Failed to transform TypeScript to JavaScript")],
     Returned (VObj [])).
Proof.
  intros Hread Hcode. unfold loadTSOptions.
  rewrite (bind_lift_returned _ _ _ Hread), Hcode.
  reflexivity.
Qed.

Lemma extname_of_empty : Path.extname "" = "".
Proof. reflexivity. Qed.

Lemma loadOptions_of_file (file : string) (rest : object) :
  file <> "" ->
  loadOptions w (Some (("file", VStr file) :: rest)) = loadOptionsFile w file.
Proof.
  intros Hfile.
  assert (Ht : truthy (VStr file) = true).
  { simpl. now destruct (String.eqb_spec file ""). }
  unfold loadOptions.
  change (arg_get (Some (("file", VStr file) :: rest)) "file")
    with (VStr file).
  rewrite Ht, bind_ret, Ht. simpl negb. cbv iota.
  now rewrite (bind_lift_returned _ file).
Qed.

Lemma loadOptions_detected (path : option object) (file : string) :
  truthy (arg_get path "file") = false ->
  detectOptionsFile w (arg_get path "root") = Returned (VStr file) ->
  file <> "" ->
  loadOptions w path = loadOptionsFile w file.
Proof.
  intros Hnone Hfound Hfile.
  assert (Ht : truthy (VStr file) = true).
  { simpl. now destruct (String.eqb_spec file ""). }
  unfold loadOptions.
  rewrite Hnone, (bind_lift_returned _ _ _ Hfound), Ht.
  simpl negb. cbv iota.
  now rewrite (bind_lift_returned _ file).
Qed.

End LoaderFacts.

Lemma one_of_cases (options : list string) (s : string) :
  one_of options s = true -> In s options.
Proof.
  unfold one_of. rewrite existsb_exists.
  intros (x & Hin & Heq). apply String.eqb_eq in Heq. now subst.
Qed.

(** Which loader [loadOptionsFile] hands a script file to. *)
Lemma loadOptionsFile_script (w : World) (file code : string) :
  readFileSync w file = Returned code ->
  (one_of [".js"; ".cjs"; ".mjs"] (Path.extname file) = true ->
   loadOptionsFile w file = loadJSOptions w file) /\
  (one_of [".ts"; ".mts"] (Path.extname file) = true ->
   loadOptionsFile w file = loadTSOptions w file).
Proof.
  intros Hread. unfold loadOptionsFile.
  rewrite (bind_lift_returned _ _ _ Hread).
  split; intros Hext; apply one_of_cases in Hext; simpl in Hext;
    repeat (destruct Hext as [<- | Hext]; [reflexivity|]);
    contradiction.
Qed.

Lemma script_file_named (w : World) (file code : string) (e : exn) :
  script_evaluation_throws w file code e -> file <> "".
Proof.
  intros [[H _] | [H _]] ->; discriminate H.
Qed.

(* ------------------------------------------------------------------ *)
(** ** The branches of run *)
(* ------------------------------------------------------------------ *)

Section RunFacts.

Local Open Scope eff_scope.

Lemma run_without_arguments (w : World) :
  run w None
  = (loaded <- loadOptions w (Some [("root", VStr (cwd w))]) ;; pack w loaded).
Proof. reflexivity. Qed.

Lemma run_with_empty_object (w : World) :
  run w (Some [])
  = (loaded <- loadOptions w (Some [("root", VStr (cwd w))]) ;; pack w loaded).
Proof. reflexivity. Qed.

Lemma run_with_file_or_root (w : World) (options : object) :
  truthy (get_prop options "file" || get_prop options "root")%js = true ->
  run w (Some options)
  = (loaded <- loadOptions w (Some options) ;; pack w loaded).
Proof. intros H. unfold run, arg_get. now rewrite H. Qed.

Lemma run_direct (w : World) (options : object) :
  options <> [] ->
  lookup options "file" = None ->
  lookup options "root" = None ->
  run w (Some options) = pack w (VObj options).
Proof.
  intros Hne Hfile Hroot. unfold run, arg_get, get_prop.
  rewrite Hfile, Hroot. simpl.
  destruct options; [contradiction | reflexivity].
Qed.

(** [pack] reads nothing but the collaborators [same_for_pack] names. *)
Lemma pack_frame (w w' : World) (options : value) :
  same_for_pack w w' -> pack w' options = pack w options.
Proof.
  destruct w, w'. unfold same_for_pack; simpl.
  intros (<- & <- & <- & <- & <- & <- & <-).
  reflexivity.
Qed.

End RunFacts.

(* ------------------------------------------------------------------ *)
(** ** Paths made of plain pieces *)
(* ------------------------------------------------------------------ *)

Section PathFacts.

Import Path.

Lemma is_plain_inv (s : string) :
  is_plain s = true ->
  s <> "" /\ s <> "." /\ s <> ".." /\ slash_free s.
Proof.
  unfold is_plain. rewrite !andb_true_iff, !negb_true_iff.
  intros [[[H1 H2] H3] H4].
  repeat split; try assumption;
    intros ->; discriminate.
Qed.

Lemma split_nonempty (s : string) : split s <> [].
Proof.
  induction s as [|c s IH]; simpl; [discriminate|].
  destruct (is_slash c); [discriminate|].
  destruct (split s); [contradiction | discriminate].
Qed.

Lemma split_slash_free (s : string) : slash_free s -> split s = [s].
Proof.
  unfold slash_free.
  induction s as [|c s IH]; simpl; [reflexivity|].
  rewrite andb_true_iff, negb_true_iff. intros [Hc Hs].
  now rewrite Hc, IH.
Qed.

Lemma split_app_slash (a b : string) :
  split (a ++ "/" ++ b) = (split a ++ split b)%list.
Proof.
  induction a as [|c a IH]; simpl; [reflexivity|].
  destruct (is_slash c); simpl.
  - now rewrite <- IH.
  - change (a ++ String "/" b) with (a ++ "/" ++ b). rewrite IH.
    pose proof (split_nonempty a) as Hne.
    destruct (split a); [contradiction | reflexivity].
Qed.

Lemma pieces_of_app_slash (a b : string) :
  pieces_of (a ++ "/" ++ b) = (pieces_of a ++ pieces_of b)%list.
Proof. unfold pieces_of. now rewrite split_app_slash, filter_app. Qed.

Lemma pieces_of_empty : pieces_of "" = [].
Proof. reflexivity. Qed.

Lemma pieces_of_plain (s : string) : is_plain s = true -> pieces_of s = [s].
Proof.
  intros H. apply is_plain_inv in H as (Hne & _ & _ & Hfree).
  unfold pieces_of. rewrite (split_slash_free _ Hfree). simpl.
  now destruct (String.eqb_spec s "").
Qed.

Lemma concat_cons (x : string) (l : list string) :
  l <> [] -> String.concat "/" (x :: l) = x ++ "/" ++ String.concat "/" l.
Proof. destruct l; [contradiction | reflexivity]. Qed.

Lemma pieces_of_concat (l : list string) :
  forallb is_plain l = true -> pieces_of (String.concat "/" l) = l.
Proof.
  induction l as [|x l IH]; [reflexivity|].
  simpl forallb. rewrite andb_true_iff. intros [Hx Hl].
  destruct l as [|y l].
  - now apply pieces_of_plain.
  - rewrite concat_cons by discriminate.
    rewrite pieces_of_app_slash, (pieces_of_plain _ Hx), IH by assumption.
    reflexivity.
Qed.

Lemma pieces_of_absolute (l : list string) :
  forallb is_plain l = true -> pieces_of (absolute_of l) = l.
Proof.
  intros H. unfold absolute_of.
  change ("/" ++ String.concat "/" l)
    with ("" ++ "/" ++ String.concat "/" l).
  now rewrite pieces_of_app_slash, pieces_of_concat.
Qed.

Lemma normalize_pieces_plain (allow : bool) (pieces stack : list string) :
  forallb is_plain (filter nonempty pieces) = true ->
  normalize_pieces allow stack pieces
  = (rev stack ++ filter nonempty pieces)%list.
Proof.
  revert stack.
  induction pieces as [|p pieces IH]; intros stack H; simpl.
  - now rewrite app_nil_r.
  - simpl in H. unfold nonempty in H at 1.
    destruct (String.eqb_spec p "") as [-> | Hp]; simpl in *.
    + now apply IH.
    + rewrite andb_true_iff in H. destruct H as [Hplain H].
      apply is_plain_inv in Hplain as (_ & Hdot & Hdots & _).
      destruct (String.eqb_spec p ".") as [|_]; [contradiction|].
      destruct (String.eqb_spec p "..") as [|_]; [contradiction|].
      unfold nonempty at 1.
      destruct (String.eqb_spec p "") as [|_]; [contradiction|].
      rewrite IH by assumption. simpl.
      now rewrite <- app_assoc.
Qed.

Lemma normalizeString_plain (path : string) (allow : bool) :
  forallb is_plain (pieces_of path) = true ->
  normalizeString path allow = String.concat "/" (pieces_of path).
Proof.
  intros H. unfold normalizeString.
  now rewrite normalize_pieces_plain.
Qed.

Lemma append_assoc (a b c : string) : (a ++ b) ++ c = a ++ b ++ c.
Proof. induction a as [|x a IH]; simpl; [reflexivity | now rewrite IH]. Qed.

Lemma concat_plain_nonempty (l : list string) :
  forallb is_plain l = true -> l <> [] -> String.concat "/" l <> "".
Proof.
  destruct l as [|x l]; [contradiction|].
  simpl forallb. rewrite andb_true_iff. intros [Hx _] _.
  apply is_plain_inv in Hx as (Hne & _).
  destruct x as [|c x]; [contradiction|].
  destruct l; discriminate.
Qed.

Lemma concat_snoc (d : list string) (name : string) :
  d <> [] ->
  String.concat "/" (d ++ [name]) = String.concat "/" d ++ "/" ++ name.
Proof.
  induction d as [|x d IH]; [contradiction|]. intros _.
  destruct d as [|y d].
  - reflexivity.
  - change ((x :: y :: d) ++ [name])%list with (x :: ((y :: d) ++ [name]))%list.
    rewrite concat_cons by (simpl; discriminate).
    rewrite IH by discriminate.
    rewrite (concat_cons x (y :: d)) by discriminate.
    now rewrite <- !append_assoc.
Qed.

Lemma absolute_of_snoc (d : list string) (name : string) :
  absolute_of (d ++ [name]) = parent_text d ++ "/" ++ name.
Proof.
  unfold absolute_of. destruct d as [|x d]; [reflexivity|].
  rewrite concat_snoc by discriminate.
  unfold parent_text, absolute_of.
  now rewrite <- !append_assoc.
Qed.

Lemma chars_app (a b : string) :
  list_ascii_of_string (a ++ b)
  = (list_ascii_of_string a ++ list_ascii_of_string b)%list.
Proof. induction a as [|c a IH]; simpl; [reflexivity | now rewrite IH]. Qed.

Lemma take_while_stop {A} (f : A -> bool) (l r : list A) (x : A) :
  forallb f l = true -> f x = false ->
  take_while f (l ++ x :: r) = l /\ drop_while f (l ++ x :: r) = x :: r.
Proof.
  intros Hl Hx. induction l as [|y l IH]; simpl.
  - now rewrite Hx.
  - simpl in Hl. rewrite andb_true_iff in Hl. destruct Hl as [Hy Hl].
    rewrite Hy. destruct (IH Hl) as [-> ->]. now split.
Qed.

Lemma take_while_all {A} (f : A -> bool) (l : list A) :
  forallb f l = true -> take_while f l = l /\ drop_while f l = [].
Proof.
  induction l as [|y l IH]; simpl; [now split|].
  rewrite andb_true_iff. intros [Hy Hl].
  rewrite Hy. destruct (IH Hl) as [-> ->]. now split.
Qed.

Lemma forallb_rev {A} (f : A -> bool) (l : list A) :
  forallb f (rev l) = forallb f l.
Proof.
  induction l as [|x l IH]; [reflexivity|].
  simpl. rewrite forallb_app, IH. simpl.
  now rewrite andb_true_r, andb_comm.
Qed.

Lemma string_of_chars (s : string) :
  string_of_list_ascii (list_ascii_of_string s) = s.
Proof. apply string_of_list_ascii_of_string. Qed.

Lemma drop_slashes_plain (name : string) (rest : list ascii) :
  is_plain name = true ->
  drop_while is_slash (rev (list_ascii_of_string name) ++ rest)
  = (rev (list_ascii_of_string name) ++ rest)%list.
Proof.
  intros H. apply is_plain_inv in H as (Hne & _ & _ & Hfree).
  unfold slash_free in Hfree. rewrite <- forallb_rev in Hfree.
  destruct (rev (list_ascii_of_string name)) as [|c cs] eqn:E.
  - apply (f_equal (@rev ascii)) in E. rewrite rev_involutive in E.
    simpl in E. destruct name; [contradiction | discriminate].
  - simpl in Hfree. rewrite andb_true_iff, negb_true_iff in Hfree.
    simpl. now rewrite (proj1 Hfree).
Qed.

Lemma last_piece_named (pre name : string) :
  is_plain name = true -> last_piece (pre ++ "/" ++ name) = name.
Proof.
  intros H. unfold last_piece.
  rewrite chars_app. simpl list_ascii_of_string.
  rewrite rev_app_distr. simpl rev. rewrite <- app_assoc. simpl app.
  rewrite drop_slashes_plain by assumption.
  apply is_plain_inv in H as (_ & _ & _ & Hfree).
  unfold slash_free in Hfree. rewrite <- forallb_rev in Hfree.
  rewrite (proj1 (take_while_stop _ _ _ "/"%char Hfree eq_refl)).
  now rewrite rev_involutive, string_of_chars.
Qed.

Lemma last_piece_absolute (d : list string) (name : string) :
  is_plain name = true -> last_piece (absolute_of (d ++ [name])) = name.
Proof. intros H. rewrite absolute_of_snoc. now apply last_piece_named. Qed.

Lemma dirname_absolute (d : list string) (name : string) :
  forallb is_plain d = true -> is_plain name = true ->
  dirname (absolute_of (d ++ [name])) = absolute_of d.
Proof.
  intros Hd Hname. rewrite absolute_of_snoc. unfold dirname.
  pose proof Hname as Hinv. apply is_plain_inv in Hinv as (_ & _ & _ & Hfree).
  unfold slash_free in Hfree. rewrite <- forallb_rev in Hfree.
  destruct d as [|x d].
  - simpl parent_text. simpl list_ascii_of_string. cbv beta iota.
    rewrite <- (app_nil_r (rev (list_ascii_of_string name))).
    rewrite drop_slashes_plain by assumption. rewrite app_nil_r.
    now rewrite (proj2 (take_while_all _ _ Hfree)).
  - unfold parent_text, absolute_of.
    remember (String.concat "/" (x :: d)) as body eqn:Hbody.
    assert (Hne : body <> "")
      by (subst body; now apply concat_plain_nonempty).
    simpl list_ascii_of_string. cbv beta iota.
    rewrite chars_app. simpl list_ascii_of_string.
    rewrite rev_app_distr. simpl rev. rewrite <- app_assoc. simpl app.
    rewrite drop_slashes_plain by assumption.
    rewrite (proj2 (take_while_stop _ _ _ "/"%char Hfree eq_refl)).
    destruct (rev (list_ascii_of_string body)) as [|c cs] eqn:E.
    + destruct body; [contradiction|]. simpl in E.
      apply app_eq_nil in E. destruct E; discriminate.
    + cbv beta iota. rewrite <- E, rev_involutive. simpl.
      now rewrite string_of_chars.
Qed.

Lemma rev_chars_nonempty (s : string) :
  s <> "" ->
  exists c cs, rev (list_ascii_of_string s) = c :: cs /\
               In c (list_ascii_of_string s).
Proof.
  intros Hne.
  destruct (rev (list_ascii_of_string s)) as [|c cs] eqn:E.
  - destruct s; [contradiction|]. simpl in E.
    apply app_eq_nil in E. destruct E; discriminate.
  - exists c, cs. split; [reflexivity|].
    apply in_rev. rewrite E. now left.
Qed.

Lemma ends_with_slash_app (a b : string) :
  b <> "" -> ends_with_slash (a ++ b) = ends_with_slash b.
Proof.
  intros Hb. unfold ends_with_slash.
  rewrite chars_app, rev_app_distr.
  destruct (rev_chars_nonempty b Hb) as (c & cs & -> & _).
  reflexivity.
Qed.

Lemma ends_with_slash_plain (s : string) :
  is_plain s = true -> ends_with_slash s = false.
Proof.
  intros H. apply is_plain_inv in H as (Hne & _ & _ & Hfree).
  unfold ends_with_slash.
  destruct (rev_chars_nonempty s Hne) as (c & cs & -> & Hin).
  unfold slash_free in Hfree. rewrite forallb_forall in Hfree.
  apply Hfree in Hin. now apply negb_true_iff in Hin.
Qed.

Lemma ends_with_slash_concat (r : list string) :
  forallb is_plain r = true -> r <> [] ->
  ends_with_slash (String.concat "/" r) = false.
Proof.
  induction r as [|x r IH]; [contradiction|].
  simpl forallb. rewrite andb_true_iff. intros [Hx Hr] _.
  destruct r as [|y r].
  - now apply ends_with_slash_plain.
  - rewrite concat_cons by discriminate.
    assert (Hrest : String.concat "/" (y :: r) <> "")
      by now apply concat_plain_nonempty.
    rewrite ends_with_slash_app by discriminate.
    change ("/" ++ String.concat "/" (y :: r))
      with (String "/" "" ++ String.concat "/" (y :: r)).
    rewrite ends_with_slash_app by assumption.
    now apply IH.
Qed.

Lemma resolve_absolute (cwd : string) (l : list string) :
  forallb is_plain l = true ->
  resolve cwd [absolute_of l] = absolute_of l.
Proof.
  intros Hl. unfold resolve.
  change (resolve_loop (rev [absolute_of l] ++ [cwd]) "")
    with (absolute_of l ++ "/" ++ "", true).
  cbv beta iota. simpl negb.
  rewrite normalizeString_plain;
    rewrite pieces_of_app_slash, pieces_of_absolute, pieces_of_empty,
      app_nil_r by assumption;
    [reflexivity | assumption].
Qed.

Lemma join_absolute (out r : list string) :
  forallb is_plain out = true -> forallb is_plain r = true -> r <> [] ->
  join [absolute_of out; String.concat "/" r] = absolute_of (out ++ r).
Proof.
  intros Houtp Hr Hne.
  assert (Hrel : String.concat "/" r <> "")
    by now apply concat_plain_nonempty.
  assert (Hall : forallb is_plain (out ++ r) = true)
    by (rewrite forallb_app; now rewrite Houtp, Hr).
  assert (Hpieces : pieces_of (absolute_of out ++ "/" ++ String.concat "/" r)
                    = (out ++ r)%list)
    by now rewrite pieces_of_app_slash, pieces_of_absolute, pieces_of_concat.
  unfold join. simpl filter.
  destruct (String.eqb_spec (String.concat "/" r) "") as [|_];
    [contradiction|].
  simpl negb. cbv iota.
  change (String.concat "/" [absolute_of out; String.concat "/" r])
    with (absolute_of out ++ "/" ++ String.concat "/" r).
  unfold normalize.
  change (absolute_of out ++ "/" ++ String.concat "/" r =? "") with false.
  change (isAbsolute (absolute_of out ++ "/" ++ String.concat "/" r)) with true.
  cbv iota. simpl negb.
  rewrite normalizeString_plain by now rewrite Hpieces.
  rewrite Hpieces.
  destruct (String.eqb_spec (String.concat "/" (out ++ r)) "") as [Hempty|_].
  - apply concat_plain_nonempty in Hempty; [contradiction | assumption |].
    destruct out; [assumption | discriminate].
  - rewrite ends_with_slash_app by discriminate.
    change ("/" ++ String.concat "/" r)
      with (String "/" "" ++ String.concat "/" r).
    rewrite ends_with_slash_app by assumption.
    now rewrite ends_with_slash_concat.
Qed.

Lemma drop_common_prefix (src r : list string) :
  drop_common src (src ++ r) = ([], r).
Proof.
  induction src as [|x src IH]; simpl.
  - now destruct r.
  - now rewrite String.eqb_refl.
Qed.

Lemma relative_under (cwd : string) (src r : list string) :
  forallb is_plain src = true -> forallb is_plain r = true -> r <> [] ->
  relative cwd (absolute_of src) (absolute_of (src ++ r)) = String.concat "/" r.
Proof.
  intros Hsrcp Hr Hne.
  assert (Hall : forallb is_plain (src ++ r) = true)
    by (rewrite forallb_app; now rewrite Hsrcp, Hr).
  assert (Hdiff : absolute_of src <> absolute_of (src ++ r)).
  { intros Heq. apply (f_equal pieces_of) in Heq.
    rewrite !pieces_of_absolute in Heq by assumption.
    rewrite <- (app_nil_r src) in Heq at 1.
    apply app_inv_head in Heq. now symmetry in Heq. }
  unfold relative.
  destruct (String.eqb_spec (absolute_of src) (absolute_of (src ++ r)))
    as [|_]; [contradiction|].
  rewrite !resolve_absolute by assumption.
  destruct (String.eqb_spec (absolute_of src) (absolute_of (src ++ r)))
    as [|_]; [contradiction|].
  rewrite !pieces_of_absolute by assumption.
  now rewrite drop_common_prefix.
Qed.

Lemma rev_chars_named (stem ext : string) :
  rev (list_ascii_of_string (stem ++ "." ++ ext))
  = (rev (list_ascii_of_string ext)
     ++ "."%char :: rev (list_ascii_of_string stem))%list.
Proof.
  rewrite chars_app. simpl list_ascii_of_string.
  rewrite rev_app_distr. simpl rev. now rewrite <- app_assoc.
Qed.

Lemma extname_named (pre stem ext : string) :
  is_plain (stem ++ "." ++ ext) = true ->
  stem <> "" -> dot_free ext ->
  extname (pre ++ "/" ++ stem ++ "." ++ ext) = "." ++ ext.
Proof.
  intros Hname Hstem Hext. unfold extname.
  rewrite last_piece_named by assumption.
  apply is_plain_inv in Hname as (_ & _ & Hdots & _).
  unfold dot_free in Hext. rewrite <- forallb_rev in Hext.
  rewrite rev_chars_named.
  destruct (take_while_stop _ _ (rev (list_ascii_of_string stem))
              "."%char Hext eq_refl) as [-> ->].
  destruct (rev_chars_nonempty stem Hstem) as (c & cs & -> & _).
  destruct (String.eqb_spec (stem ++ "." ++ ext) "..") as [|_];
    [contradiction|].
  rewrite rev_involutive. simpl.
  now rewrite string_of_chars.
Qed.

Lemma length_app (a b : string) :
  String.length (a ++ b) = String.length a + String.length b.
Proof. induction a as [|c a IH]; simpl; [reflexivity | now rewrite IH]. Qed.

Lemma strip_suffix_rev_app (a b c : list ascii) :
  strip_suffix_rev (a ++ b) (a ++ c) = strip_suffix_rev b c.
Proof.
  induction a as [|x a IH]; simpl; [reflexivity|].
  now rewrite Ascii.eqb_refl.
Qed.

Lemma basename_named (pre stem ext : string) :
  is_plain (stem ++ "." ++ ext) = true ->
  stem <> "" ->
  basename (pre ++ "/" ++ stem ++ "." ++ ext) ("." ++ ext) = stem.
Proof.
  intros Hname Hstem. unfold basename.
  rewrite last_piece_named by assumption.
  assert (Hlen : String.length ("." ++ ext)
                 < String.length (pre ++ "/" ++ stem ++ "." ++ ext)).
  { rewrite !length_app. simpl.
    destruct stem; [contradiction|]. simpl. lia. }
  assert (Hltb : (String.length (pre ++ "/" ++ stem ++ "." ++ ext)
                  <? String.length ("." ++ ext))%nat = false)
    by (apply Nat.ltb_ge; lia).
  assert (Heqb : ("." ++ ext =? pre ++ "/" ++ stem ++ "." ++ ext) = false).
  { apply String.eqb_neq. intros Heq. rewrite <- Heq in Hlen. lia. }
  rewrite Hltb, Heqb.
  change (("." ++ ext =? "") || false) with false. cbv iota.
  rewrite rev_chars_named.
  change (rev (list_ascii_of_string ("." ++ ext)))
    with (rev (list_ascii_of_string ext) ++ ["."%char])%list.
  rewrite strip_suffix_rev_app. simpl strip_suffix_rev.
  destruct (rev_chars_nonempty stem Hstem) as (c & cs & E & _).
  rewrite E, <- E, rev_involutive.
  apply string_of_chars.
Qed.

Lemma extname_without_dot (pre name : string) :
  is_plain name = true -> dot_free name ->
  extname (pre ++ "/" ++ name) = "".
Proof.
  intros Hname Hfree. unfold extname.
  rewrite last_piece_named by assumption.
  unfold dot_free in Hfree. rewrite <- forallb_rev in Hfree.
  now rewrite (proj2 (take_while_all _ _ Hfree)).
Qed.

Lemma basename_without_suffix (pre name : string) :
  is_plain name = true -> basename (pre ++ "/" ++ name) "" = name.
Proof. intros H. unfold basename. simpl. now apply last_piece_named. Qed.

End PathFacts.

(** A file whose name has no dot keeps its whole name in the output
    base: there is no extension to remove. *)
Lemma output_base_without_extension
    (w : World) (options : object) (srcdir outdir : string)
    (src out rel : list string) (name : string) :
  (get_prop options "srcdir" || VStr "src")%js = VStr srcdir ->
  (get_prop options "outdir" || VStr "out")%js = VStr outdir ->
  Path.resolve (cwd w) [srcdir] = Path.absolute_of src ->
  Path.resolve (cwd w) [outdir] = Path.absolute_of out ->
  forallb Path.is_plain (src ++ out ++ rel ++ [name])%list = true ->
  Path.dot_free name ->
  output_paths w (Path.absolute_of (src ++ rel ++ [name])%list) options
  = Returned {| outfileDir := Path.absolute_of (out ++ rel)%list;
                outBase := Path.absolute_of (out ++ rel ++ [name])%list |}.
Proof.
  intros Hsrc Hout Hrsrc Hrout Hplain Hfree.
  rewrite !forallb_app in Hplain. simpl in Hplain.
  rewrite !andb_true_iff in Hplain.
  destruct Hplain as (Hsrcp & Houtp & Hrel & Hname & _).
  assert (Hfile : forallb Path.is_plain (rel ++ [name]) = true)
    by (rewrite forallb_app; simpl; now rewrite Hrel, Hname).
  assert (Hdir : forallb Path.is_plain (out ++ rel) = true)
    by (rewrite forallb_app; now rewrite Houtp, Hrel).
  unfold output_paths.
  rewrite Hsrc, Hout. simpl obind. rewrite Hrsrc, Hrout.
  rewrite relative_under by (try assumption; now destruct rel).
  rewrite join_absolute by (try assumption; now destruct rel).
  rewrite app_assoc.
  rewrite dirname_absolute by assumption.
  rewrite (absolute_of_snoc (out ++ rel)).
  rewrite extname_without_dot, basename_without_suffix by assumption.
  change (Path.join [Path.absolute_of (out ++ rel); name])
    with (Path.join [Path.absolute_of (out ++ rel); String.concat "/" [name]]).
  rewrite join_absolute
    by (try assumption; try discriminate; simpl; now rewrite Hname).
  now rewrite absolute_of_snoc.
Qed.

(* ------------------------------------------------------------------ *)
(** ** C1: resolving the empty record *)
(* ------------------------------------------------------------------ *)

Example resolve_empty_value :
  resolveOptions [] =
  [ ("srcdir", VStr "src");
    ("outdir", VStr "out");
    ("includes", VArr [VStr "**/*.ts"]);
    ("excludes",
      VArr [VStr "node_modules/**/*"; VStr "**/*.test.ts";
            VStr "**/test/**/*"]);
    ("sourcemap", VBool true);
    ("typescript", VObj [("declaration", VObj [("sourcemap", VBool true)])])
  ].
Proof. reflexivity. Qed.

(** C1, as stated, does not hold: [resolveOptions({})] is not the record
    with srcdir "src", outdir "out", includes ["**/*"], the three default
    excludes and emptyOutdir false.  Its [emptyOutdir] is left absent
    (and its [includes] is not ["**/*"]). *)
Lemma resolve_empty_not_fully_defaulted :
  ~ (lookup (resolveOptions []) "srcdir" = Some (VStr "src") /\
     lookup (resolveOptions []) "outdir" = Some (VStr "out") /\
     lookup (resolveOptions []) "includes" = Some (strs ["**/*"]) /\
     lookup (resolveOptions []) "excludes"
       = Some (strs ["node_modules/**/*"; "**/*.test.ts"; "**/test/**/*"]) /\
     lookup (resolveOptions []) "emptyOutdir" = Some (VBool false)).
Proof.
  intros (_ & _ & _ & _ & H). vm_compute in H. discriminate H.
Qed.

(** C1, amended: [resolveOptions({})] has srcdir "src", outdir "out",
    the three default excludes, an array for includes, sourcemap true and
    typescript.declaration.sourcemap true; emptyOutdir is not populated
    by resolution and stays absent. *)
Theorem resolve_empty_defaults :
  lookup (resolveOptions []) "srcdir" = Some (VStr "src") /\
  lookup (resolveOptions []) "outdir" = Some (VStr "out") /\
  (exists patterns,
     lookup (resolveOptions []) "includes" = Some (VArr patterns)) /\
  lookup (resolveOptions []) "excludes"
    = Some (strs ["node_modules/**/*"; "**/*.test.ts"; "**/test/**/*"]) /\
  lookup (resolveOptions []) "emptyOutdir" = None /\
  lookup (resolveOptions []) "sourcemap" = Some (VBool true) /\
  lookup (resolveOptions []) "typescript"
    = Some (VObj [("declaration", VObj [("sourcemap", VBool true)])]).
Proof.
  split; [|split; [|split; [|split; [|split; [|split]]]]];
    try reflexivity.
  eexists; reflexivity.
Qed.

(* ------------------------------------------------------------------ *)
(** ** C2: idempotence *)
(* ------------------------------------------------------------------ *)

(** C2: for every partial configuration record [p],
    [resolveOptions(resolveOptions(p))] equals [resolveOptions(p)]:
    same keys in the same order with the same values. *)
Theorem resolveOptions_idempotent (p : object) :
  resolveOptions (resolveOptions p) = resolveOptions p.
Proof. apply resolveOptions_fixpoint. Qed.

(* ------------------------------------------------------------------ *)
(** ** C3: explicit values *)
(* ------------------------------------------------------------------ *)

(** C3, as stated, does not hold: a present field is not always carried
    unchanged.  An explicit empty-string srcdir is replaced by "src". *)
Lemma explicit_empty_srcdir_overwritten :
  ~ (lookup [("srcdir", VStr "")] "srcdir" = Some (VStr "") ->
     lookup (resolveOptions [("srcdir", VStr "")]) "srcdir"
       = Some (VStr "")).
Proof.
  intros H. specialize (H eq_refl). vm_compute in H. discriminate H.
Qed.

(** C3, amended: a present field other than [typescript] is carried
    unchanged when its value is truthy (every array, the empty one
    included) or when its key is none of those resolution writes (so an
    explicit [emptyOutdir: false] stays); a present sub-field of an
    explicit [typescript] object is carried unchanged when it is truthy
    or is not [declaration]; and a present but falsy srcdir, outdir,
    includes, excludes or sourcemap is replaced by its default. *)
Theorem resolve_keeps_truthy_explicit (p : object) :
  (forall k v,
      lookup p k = Some v ->
      k <> "typescript" ->
      truthy v = true \/ ~ In k resolved_keys ->
      lookup (resolveOptions p) k = Some v) /\
  (forall ts k v,
      lookup p "typescript" = Some (VObj ts) ->
      lookup ts k = Some v ->
      truthy v = true \/ k <> "declaration" ->
      opt_get (get_prop (resolveOptions p) "typescript") k = v) /\
  (forall k v,
      lookup p k = Some v ->
      truthy v = false ->
      In k ["srcdir"; "outdir"; "includes"; "excludes"; "sourcemap"] ->
      lookup (resolveOptions p) k = lookup (resolveOptions []) k).
Proof.
  split; [|split].
  - intros k v Hl Hts [Ht | Hk].
    + destruct (in_dec string_dec k resolved_keys) as [Hin | Hout].
      * simpl in Hin.
        destruct Hin as [<- | [<- | [<- | [<- | [<- | [<- | []]]]]]];
          try congruence;
          [ rewrite resolve_srcdir | rewrite resolve_outdir
          | rewrite resolve_includes | rewrite resolve_excludes
          | rewrite resolve_sourcemap ];
          rewrite (get_of_lookup _ _ _ Hl);
          now rewrite truthy_or_else_l.
      * now rewrite resolve_other.
    + now rewrite resolve_other.
  - intros ts k v Hts Hl Hor.
    rewrite (get_of_lookup _ _ _ (resolve_typescript p)).
    unfold resolved_typescript, resolved_declaration.
    rewrite (get_of_lookup _ _ _ Hts). simpl.
    destruct (string_dec k "declaration") as [-> | Hk].
    + destruct Hor as [Ht | Hne]; [|congruence].
      rewrite get_set_same, (get_of_lookup _ _ _ Hl).
      now rewrite truthy_or_else_l.
    + rewrite get_set_other by congruence.
      now apply get_of_lookup.
  - intros k v Hl Hf Hin. simpl in Hin.
    destruct Hin as [<- | [<- | [<- | [<- | [<- | []]]]]];
      [ rewrite resolve_srcdir | rewrite resolve_outdir
      | rewrite resolve_includes | rewrite resolve_excludes
      | rewrite resolve_sourcemap ];
      rewrite (get_of_lookup _ _ _ Hl), truthy_or_else_r by assumption;
      reflexivity.
Qed.

Lemma resolve_keeps_truthy_explicit_witness :
  lookup (resolveOptions Sample.explicit_sample) "srcdir"
    = Some (VStr "lib") /\
  lookup (resolveOptions Sample.explicit_sample) "includes"
    = Some (VArr []) /\
  lookup (resolveOptions Sample.explicit_sample) "emptyOutdir"
    = Some (VBool false) /\
  opt_get (get_prop (resolveOptions Sample.explicit_sample) "typescript")
    "allowNamespaces" = VBool false /\
  lookup (resolveOptions Sample.explicit_sample) "sourcemap"
    = Some (VBool true).
Proof.
  destruct (resolve_keeps_truthy_explicit Sample.explicit_sample)
    as (Htop & Hts & Hfalsy).
  split; [|split; [|split; [|split]]].
  - apply Htop; [reflexivity | discriminate | left; reflexivity].
  - apply Htop; [reflexivity | discriminate | left; reflexivity].
  - apply Htop; [reflexivity | discriminate |].
    right. simpl. intuition discriminate.
  - apply (Hts [("allowNamespaces", VBool false)]);
      [reflexivity | reflexivity | right; discriminate].
  - apply (Hfalsy "sourcemap" (VBool false));
      [reflexivity | reflexivity | simpl; tauto].
Defined.

(* ------------------------------------------------------------------ *)
(** ** C4: a JSON configuration with a comment *)
(* ------------------------------------------------------------------ *)

Example jsonc_text_parsed :
  loadJsonOptions Sample.jsonc_text
  = Returned (VObj [("srcdir", VStr "source")]).
Proof. reflexivity. Qed.

(** C4, on the code: loading a .json, .jsonc or .json5 file whose text
    is a line comment and the single key srcdir set to source returns
    the record that holds srcdir alone; outdir, includes and excludes
    are absent from it, no default is filled in. *)
Theorem json_config_loaded_without_defaults (w : World) (file : string) :
  one_of [".json"; ".jsonc"; ".json5"] (Path.extname file) = true ->
  readFileSync w file = Returned Sample.jsonc_text ->
  exists loaded,
    loadOptionsFile w file = ([], Returned (VObj loaded)) /\
    loaded = [("srcdir", VStr "source")] /\
    lookup loaded "outdir" = None /\
    lookup loaded "includes" = None /\
    lookup loaded "excludes" = None.
Proof.
  intros Hext Hread.
  exists [("srcdir", VStr "source")].
  split; [|now repeat split].
  unfold loadOptionsFile.
  rewrite (bind_lift_returned _ _ _ Hread).
  apply one_of_cases in Hext; simpl in Hext.
  destruct Hext as [<- | [<- | [<- | []]]]; reflexivity.
Qed.

Lemma json_config_loaded_without_defaults_witness :
  exists loaded,
    loadOptionsFile Sample.world "/proj/library-pack.jsonc"
    = ([], Returned (VObj loaded)) /\
    loaded = [("srcdir", VStr "source")] /\
    lookup loaded "outdir" = None /\
    lookup loaded "includes" = None /\
    lookup loaded "excludes" = None.
Proof.
  apply (json_config_loaded_without_defaults Sample.world
           "/proj/library-pack.jsonc"); reflexivity.
Defined.

(* ------------------------------------------------------------------ *)
(** ** C5: where the outputs go *)
(* ------------------------------------------------------------------ *)

Example output_base_example (w : World) :
  output_paths w "/proj/src/a/b.ts"
    [("srcdir", VStr "/proj/src"); ("outdir", VStr "/proj/out")]
  = Returned {| outfileDir := "/proj/out/a"; outBase := "/proj/out/a/b" |}.
Proof. reflexivity. Qed.

(** C5: with the source and output directories resolving to the
    absolute directories [/src] and [/out], the file [/src/rel/stem.ext]
    gets the output base [/out/rel/stem]: its path relative to the source
    directory, joined onto the output directory, with the final
    extension removed; and its outputs go to the directory [/out/rel].
    In particular /proj/src/a/b.ts with source directory /proj/src and
    output directory /proj/out gets the base /proj/out/a/b. *)
Theorem output_base_mirrors_source_tree
    (w : World) (options : object) (srcdir outdir : string)
    (src out rel : list string) (stem ext : string) :
  (get_prop options "srcdir" || VStr "src")%js = VStr srcdir ->
  (get_prop options "outdir" || VStr "out")%js = VStr outdir ->
  Path.resolve (cwd w) [srcdir] = Path.absolute_of src ->
  Path.resolve (cwd w) [outdir] = Path.absolute_of out ->
  forallb Path.is_plain
    (src ++ out ++ rel ++ [stem; Path.with_ext stem ext])%list = true ->
  Path.dot_free ext ->
  output_paths w
    (Path.absolute_of (src ++ rel ++ [Path.with_ext stem ext])%list) options
  = Returned {| outfileDir := Path.absolute_of (out ++ rel)%list;
                outBase := Path.absolute_of (out ++ rel ++ [stem])%list |}.
Proof.
  intros Hsrc Hout Hrsrc Hrout Hplain Hext. unfold Path.with_ext in *.
  rewrite !forallb_app in Hplain. simpl in Hplain.
  rewrite !andb_true_iff in Hplain.
  destruct Hplain as (Hsrcp & Houtp & Hrel & Hstem & Hname & _).
  assert (Hstem' : stem <> "") by (now apply is_plain_inv in Hstem).
  assert (Hfile : forallb Path.is_plain (rel ++ [stem ++ "." ++ ext]) = true)
    by (rewrite forallb_app; simpl; now rewrite Hrel, Hname).
  assert (Hdir : forallb Path.is_plain (out ++ rel) = true)
    by (rewrite forallb_app; now rewrite Houtp, Hrel).
  unfold output_paths.
  rewrite Hsrc, Hout. simpl obind. rewrite Hrsrc, Hrout.
  rewrite relative_under by (try assumption; now destruct rel).
  rewrite join_absolute by (try assumption; now destruct rel).
  rewrite app_assoc.
  rewrite dirname_absolute by assumption.
  rewrite (absolute_of_snoc (out ++ rel)).
  change (stem ++ String "." ext) with (stem ++ "." ++ ext) in *.
  rewrite extname_named, basename_named by assumption.
  change (Path.join [Path.absolute_of (out ++ rel); stem])
    with (Path.join [Path.absolute_of (out ++ rel); String.concat "/" [stem]]).
  rewrite join_absolute
    by (try assumption; try discriminate; simpl; now rewrite Hstem).
  now rewrite <- app_assoc.
Qed.

Lemma output_base_mirrors_source_tree_witness :
  output_paths Sample.world "/proj/src/a/b.ts"
    [("srcdir", VStr "/proj/src"); ("outdir", VStr "/proj/out")]
  = Returned {| outfileDir := "/proj/out/a"; outBase := "/proj/out/a/b" |}
  /\
  output_paths Sample.world "/proj/src/a/util/fmt.test.ts" []
  = Returned {| outfileDir := "/proj/out/a/util";
                outBase := "/proj/out/a/util/fmt.test" |}.
Proof.
  split.
  - exact (output_base_mirrors_source_tree Sample.world
             [("srcdir", VStr "/proj/src"); ("outdir", VStr "/proj/out")]
             "/proj/src" "/proj/out"
             ["proj"; "src"] ["proj"; "out"] ["a"] "b" "ts"
             eq_refl eq_refl eq_refl eq_refl eq_refl eq_refl).
  - exact (output_base_mirrors_source_tree Sample.world [] "src" "out"
             ["proj"; "src"] ["proj"; "out"] ["a"; "util"] "fmt.test" "ts"
             eq_refl eq_refl eq_refl eq_refl eq_refl eq_refl).
Defined.

(* ------------------------------------------------------------------ *)
(** ** C6: explicit include patterns *)
(* ------------------------------------------------------------------ *)

(** C6: when [includes] is explicitly set to a non-empty array,
    [resolveOptions(p).includes] is that array, same elements in the same
    order. *)
Theorem explicit_includes_preserved (p : object) (patterns : list value) :
  lookup p "includes" = Some (VArr patterns) ->
  patterns <> [] ->
  lookup (resolveOptions p) "includes" = Some (VArr patterns).
Proof.
  intros Hl _.
  rewrite resolve_includes, (get_of_lookup _ _ _ Hl).
  reflexivity.
Qed.

Lemma explicit_includes_preserved_witness :
  lookup (resolveOptions [("srcdir", VStr "custom-src");
                          ("includes", strs ["src/**/*"; "lib/**/*.ts"])])
    "includes"
  = Some (strs ["src/**/*"; "lib/**/*.ts"]).
Proof.
  apply explicit_includes_preserved; [reflexivity | discriminate].
Defined.

(* ------------------------------------------------------------------ *)
(** ** C7: the transform-options block *)
(* ------------------------------------------------------------------ *)

(** C7, as stated, does not hold: a top-level [sourcemap] that is
    present with the falsy value [false] is not left as supplied, it is
    set to [true]. *)
Lemma explicit_false_sourcemap_overwritten :
  ~ (lookup [("sourcemap", VBool false)] "sourcemap" = Some (VBool false) ->
     lookup (resolveOptions [("sourcemap", VBool false)]) "sourcemap"
       = Some (VBool false)).
Proof.
  intros H. specialize (H eq_refl). vm_compute in H. discriminate H.
Qed.

(** C7, amended: every top-level field that is none of srcdir, outdir,
    includes, excludes, sourcemap, typescript passes through verbatim,
    and so does every sub-field of [typescript] other than
    [declaration]; top-level [sourcemap] is kept when truthy and set to
    [true] when absent or falsy; [typescript.declaration] is left as
    supplied when it is an object that carries a [sourcemap] sub-field
    (a falsy one included), and is set to [{sourcemap: true}] when it is
    absent. *)
Theorem transform_options_pass_through (p : object) :
  (forall k, ~ In k resolved_keys ->
             lookup (resolveOptions p) k = lookup p k) /\
  (forall k, k <> "declaration" ->
             opt_get (get_prop (resolveOptions p) "typescript") k
             = get_prop (spread (get_prop p "typescript")) k) /\
  (truthy (get_prop p "sourcemap") = true ->
   lookup (resolveOptions p) "sourcemap" = Some (get_prop p "sourcemap")) /\
  (truthy (get_prop p "sourcemap") = false ->
   lookup (resolveOptions p) "sourcemap" = Some (VBool true)) /\
  (forall d s,
      opt_get (get_prop p "typescript") "declaration" = VObj d ->
      lookup d "sourcemap" = Some s ->
      opt_get (get_prop (resolveOptions p) "typescript") "declaration"
      = VObj d) /\
  (opt_get (get_prop p "typescript") "declaration" = VUndef ->
   opt_get (get_prop (resolveOptions p) "typescript") "declaration"
   = VObj [("sourcemap", VBool true)]).
Proof.
  assert (Hts : get_prop (resolveOptions p) "typescript"
                = resolved_typescript p)
    by apply get_of_lookup, resolve_typescript.
  split; [|split; [|split; [|split; [|split]]]].
  - intros k Hk. now apply resolve_other.
  - intros k Hk. rewrite Hts. unfold resolved_typescript; simpl.
    now rewrite get_set_other by congruence.
  - intros Ht. now rewrite resolve_sourcemap, truthy_or_else_l.
  - intros Hf. now rewrite resolve_sourcemap, truthy_or_else_r.
  - intros d s Hd _. rewrite Hts. unfold resolved_typescript; simpl.
    rewrite get_set_same. unfold resolved_declaration. now rewrite Hd.
  - intros Hd. rewrite Hts. unfold resolved_typescript; simpl.
    rewrite get_set_same. unfold resolved_declaration. now rewrite Hd.
Qed.

Lemma transform_options_pass_through_witness :
  lookup (resolveOptions Sample.transform_sample) "target"
    = Some (VStr "es2020") /\
  opt_get (get_prop (resolveOptions Sample.transform_sample) "typescript")
    "allowNamespaces" = VBool true /\
  lookup (resolveOptions Sample.transform_sample) "sourcemap"
    = Some (VBool true) /\
  opt_get (get_prop (resolveOptions Sample.transform_sample) "typescript")
    "declaration"
  = VObj [("stripInternal", VBool true); ("sourcemap", VBool false)] /\
  opt_get (get_prop (resolveOptions [("sourcemap", VStr "inline")])
             "typescript") "declaration"
  = VObj [("sourcemap", VBool true)] /\
  lookup (resolveOptions [("sourcemap", VStr "inline")]) "sourcemap"
  = Some (VStr "inline").
Proof.
  destruct (transform_options_pass_through Sample.transform_sample)
    as (Hother & Hsub & _ & Hforce & Hdecl & _).
  destruct (transform_options_pass_through [("sourcemap", VStr "inline")])
    as (_ & _ & Hkeep & _ & _ & Hnodecl).
  split; [|split; [|split; [|split; [|split]]]].
  - apply (Hother "target"). simpl. intuition discriminate.
  - apply (Hsub "allowNamespaces"). discriminate.
  - apply Hforce. reflexivity.
  - apply (Hdecl _ (VBool false)); reflexivity.
  - apply Hnodecl. reflexivity.
  - apply Hkeep. reflexivity.
Defined.

(* ------------------------------------------------------------------ *)
(** ** C8: a configuration script that throws *)
(* ------------------------------------------------------------------ *)

(** C8: when evaluating a script-format configuration file (js, cjs,
    mjs, ts, mts) throws, loading it does not throw: it logs one
    error-level message that carries the error and returns the empty
    record; and [run], given that file or finding it in the working
    directory, then goes on to [pack({})], which packs with the
    defaults. *)
Theorem script_config_failure_is_soft
    (w : World) (file code : string) (e : exn) :
  readFileSync w file = Returned code ->
  script_evaluation_throws w file code e ->
  exists message,
    loadOptionsFile w file = ([ConsolaError message e], Returned (VObj [])) /\
    run w (Some [("file", VStr file)])
    = (ConsolaError message e :: trace (pack w (VObj [])),
       result (pack w (VObj []))) /\
    (detectOptionsFile w (VStr (cwd w)) = Returned (VStr file) ->
     run w None
     = (ConsolaError message e :: trace (pack w (VObj [])),
        result (pack w (VObj [])))).
Proof.
  intros Hread Hthrows.
  pose proof (script_file_named _ _ _ _ Hthrows) as Hnamed.
  destruct (loadOptionsFile_script w file code Hread) as [Hjs Hts].
  assert (Hload : exists message,
             loadOptionsFile w file
             = ([ConsolaError message e], Returned (VObj []))).
  { destruct Hthrows as [[Hext Himport] | (Hext & Hcode & Himport)].
    - eexists. rewrite (Hjs Hext).
      now apply loadJSOptions_import_throws.
    - eexists. rewrite (Hts Hext).
      now apply loadTSOptions_import_throws with (code := code). }
  destruct Hload as [message Hload].
  exists message. split; [exact Hload|]. split.
  - unfold run.
    assert (Ht : truthy (arg_get (Some [("file", VStr file)]) "file"
                         || arg_get (Some [("file", VStr file)]) "root")%js
                 = true).
    { change (arg_get (Some [("file", VStr file)]) "file") with (VStr file).
      unfold or_else; simpl.
      destruct (String.eqb_spec file "") as [|_]; [contradiction|].
      simpl. now destruct (String.eqb_spec file ""). }
    rewrite Ht, loadOptions_of_file, Hload by assumption.
    now rewrite bind_logged.
  - intros Hfound. rewrite run_without_arguments.
    rewrite (loadOptions_detected w _ file), Hload
      by (try assumption; reflexivity).
    now rewrite bind_logged.
Qed.

Lemma script_config_failure_is_soft_witness :
  (exists message,
     loadOptionsFile Sample.world "/proj/ts/library-pack.config.ts"
     = ([ConsolaError message Sample.boom], Returned (VObj [])) /\
     run Sample.world
       (Some [("file", VStr "/proj/ts/library-pack.config.ts")])
     = (ConsolaError message Sample.boom
          :: trace (pack Sample.world (VObj [])),
        result (pack Sample.world (VObj []))))
  /\
  (exists message,
     loadOptionsFile Sample.script_world "/proj/js/library-pack.config.mjs"
     = ([ConsolaError message Sample.boom], Returned (VObj [])) /\
     run Sample.script_world None
     = (ConsolaError message Sample.boom
          :: trace (pack Sample.script_world (VObj [])),
        result (pack Sample.script_world (VObj [])))).
Proof.
  split.
  - destruct (script_config_failure_is_soft Sample.world
                "/proj/ts/library-pack.config.ts" Sample.broken_script
                Sample.boom)
      as (message & Hload & Hrun & _).
    + reflexivity.
    + right. split; [reflexivity | split; [discriminate | reflexivity]].
    + exists message. now split.
  - destruct (script_config_failure_is_soft Sample.script_world
                "/proj/js/library-pack.config.mjs" Sample.broken_script
                Sample.boom)
      as (message & Hload & _ & Hrun).
    + reflexivity.
    + left. split; reflexivity.
    + exists message. split; [exact Hload|]. apply Hrun. reflexivity.
Defined.

(* ------------------------------------------------------------------ *)
(** ** C9: an empty YAML document *)
(* ------------------------------------------------------------------ *)

(** C9: when the YAML parser hands back [null] (an empty or null
    document) or [undefined], [loadYamlOptions] returns the empty
    record: nothing is thrown and no property of the parse result is
    read; loading a .yaml or .yml file with such a text returns the
    empty record and logs nothing. *)
Theorem empty_yaml_gives_empty_record
    (w : World) (code : string) (raw : value) :
  yaml_parse w code = Returned raw ->
  raw = VNull \/ raw = VUndef ->
  loadYamlOptions w code = Returned (VObj []) /\
  (forall file,
      one_of [".yaml"; ".yml"] (Path.extname file) = true ->
      readFileSync w file = Returned code ->
      loadOptionsFile w file = ([], Returned (VObj []))).
Proof.
  intros Hparse Hraw.
  assert (Hyaml : loadYamlOptions w code = Returned (VObj [])).
  { unfold loadYamlOptions. rewrite Hparse.
    now destruct Hraw as [-> | ->]. }
  split; [exact Hyaml|].
  intros file Hext Hread. unfold loadOptionsFile.
  rewrite (bind_lift_returned _ _ _ Hread).
  apply one_of_cases in Hext; simpl in Hext.
  destruct Hext as [<- | [<- | []]]; simpl; now rewrite Hyaml.
Qed.

Lemma empty_yaml_gives_empty_record_witness :
  loadYamlOptions Sample.world "" = Returned (VObj []) /\
  loadOptionsFile Sample.world "/proj/yaml/library-pack.yaml"
  = ([], Returned (VObj [])).
Proof.
  split.
  - apply (empty_yaml_gives_empty_record Sample.world "" VNull);
      [reflexivity | left; reflexivity].
  - apply (empty_yaml_gives_empty_record Sample.world
             ("# nothing set" ++ Sample.nl) VNull);
      [reflexivity | left; reflexivity | reflexivity | reflexivity].
Defined.

(* ------------------------------------------------------------------ *)
(** ** C10: options handed to run *)
(* ------------------------------------------------------------------ *)

(** C10: on a non-empty options object that has neither a [file] nor a
    [root] field, [run] is [pack] on exactly those options; and it then
    runs the same in every world that differs only in what a search for
    a configuration file or a loader would find, so no configuration
    file is looked for or loaded. *)
Theorem run_packs_given_options_directly (w : World) (options : object) :
  options <> [] ->
  lookup options "file" = None ->
  lookup options "root" = None ->
  run w (Some options) = pack w (VObj options) /\
  (forall w', same_for_pack w w' ->
              run w' (Some options) = run w (Some options)).
Proof.
  intros Hne Hfile Hroot. split.
  - now apply run_direct.
  - intros w' Hsame.
    rewrite !run_direct by assumption.
    now apply pack_frame.
Qed.

Lemma run_packs_given_options_directly_witness :
  run Sample.world (Some [("srcdir", VStr "src"); ("outdir", VStr "dist")])
  = pack Sample.world (VObj [("srcdir", VStr "src"); ("outdir", VStr "dist")])
  /\
  run Sample.no_config_world
    (Some [("srcdir", VStr "src"); ("outdir", VStr "dist")])
  = run Sample.world (Some [("srcdir", VStr "src"); ("outdir", VStr "dist")]).
Proof.
  destruct (run_packs_given_options_directly Sample.world
              [("srcdir", VStr "src"); ("outdir", VStr "dist")])
    as [Hdirect Hframe];
    [discriminate | reflexivity | reflexivity |].
  split; [exact Hdirect|].
  apply Hframe. repeat split.
Defined.


(* ================================================================== *)
(** * Further properties of the code *)
(* ================================================================== *)

(* ------------------------------------------------------------------ *)
(** ** resolveOptions: what every resolved record looks like *)
(* ------------------------------------------------------------------ *)

Section ResolvedShape.

Import Cases.

Lemma keys_set_prop (o : object) (k : string) (v : value) :
  keys (set_prop o k v)
  = (keys o ++ match lookup o k with Some _ => [] | None => [k] end)%list.
Proof.
  unfold keys.
  induction o as [|[k' v'] rest IH]; simpl; [reflexivity|].
  destruct (String.eqb_spec k k') as [-> | Hk]; simpl.
  - now rewrite app_nil_r.
  - now rewrite IH.
Qed.

Lemma keys_object_literal (fields : list (string * value)) (base : object) :
  exists added,
    keys (object_literal base fields) = (keys base ++ added)%list /\
    forall k, In k added -> In k (List.map fst fields) /\ lookup base k = None.
Proof.
  revert base.
  induction fields as [|[k v] fields IH]; intros base.
  - exists []. split; [now rewrite app_nil_r | intros k []].
  - destruct (IH (set_prop base k v)) as (added & Hkeys & Hadded).
    change (object_literal base ((k, v) :: fields))
      with (object_literal (set_prop base k v) fields).
    rewrite Hkeys, keys_set_prop, <- app_assoc.
    eexists. split; [reflexivity|].
    intros k' Hin. apply in_app_or in Hin. destruct Hin as [Hin | Hin].
    + destruct (lookup base k) eqn:E; [destruct Hin|].
      destruct Hin as [<- | []]. split; [now left | assumption].
    + destruct (Hadded k' Hin) as [Hfield Hnone]. split; [now right|].
      destruct (string_dec k k') as [<- | Hne].
      * now rewrite lookup_set_same in Hnone.
      * now rewrite lookup_set_other in Hnone.
Qed.

Lemma or_else_twice (a b : value) :
  truthy b = true -> ((a || b) || b)%js = (a || b)%js.
Proof. intros Hb. apply truthy_or_else_l. now apply or_else_truthy. Qed.

End ResolvedShape.

(** X1: after resolution srcdir, outdir, includes, excludes and
    sourcemap are always set to a truthy value, whatever the input held
    (absent, null, false, the empty string), and typescript is always
    an object whose declaration is set. *)
Theorem resolved_fields_always_set (p : object) :
  truthy (get_prop (resolveOptions p) "srcdir") = true /\
  truthy (get_prop (resolveOptions p) "outdir") = true /\
  truthy (get_prop (resolveOptions p) "includes") = true /\
  truthy (get_prop (resolveOptions p) "excludes") = true /\
  truthy (get_prop (resolveOptions p) "sourcemap") = true /\
  exists ts,
    lookup (resolveOptions p) "typescript" = Some (VObj ts) /\
    truthy (get_prop ts "declaration") = true.
Proof.
  rewrite (get_of_lookup _ _ _ (resolve_srcdir p)),
    (get_of_lookup _ _ _ (resolve_outdir p)),
    (get_of_lookup _ _ _ (resolve_includes p)),
    (get_of_lookup _ _ _ (resolve_excludes p)),
    (get_of_lookup _ _ _ (resolve_sourcemap p)).
  split; [|split; [|split; [|split; [|split]]]];
    try (now apply or_else_truthy).
  eexists. split; [apply resolve_typescript|].
  rewrite get_set_same. apply resolved_declaration_truthy.
Qed.

(** X2: resolution drops no field and moves none: the keys of the
    resolved record are the keys of the input in their order, followed
    by those of srcdir, outdir, includes, excludes, sourcemap,
    typescript that the input lacked. *)
Theorem resolveOptions_keeps_every_key (p : object) :
  exists added,
    Cases.keys (resolveOptions p) = (Cases.keys p ++ added)%list /\
    forall k, In k added -> In k resolved_keys /\ lookup p k = None.
Proof.
  unfold resolveOptions.
  match goal with
  | |- context [object_literal _ ?fields] =>
      destruct (keys_object_literal fields p) as (added & Hkeys & Hadded)
  end.
  exists added. split; [exact Hkeys | exact Hadded].
Qed.

(** X3: [transform] computes the same output paths from resolved
    options as from the options before resolution: its own defaulting
    of srcdir and outdir agrees with that of [resolveOptions]. *)
Theorem output_paths_after_resolution
    (w : World) (file : string) (options : object) :
  output_paths w file (resolveOptions options) = output_paths w file options.
Proof.
  unfold output_paths.
  rewrite (get_of_lookup _ _ _ (resolve_srcdir options)),
    (get_of_lookup _ _ _ (resolve_outdir options)).
  now rewrite !or_else_twice.
Qed.

(** X4: a boolean sourcemap option cannot switch source maps off:
    whether it is absent, [false] or [true], the resolved record has
    sourcemap [true]. *)
Theorem boolean_sourcemap_forced_on (p : object) :
  get_prop p "sourcemap" = VUndef \/
    (exists b, get_prop p "sourcemap" = VBool b) ->
  lookup (resolveOptions p) "sourcemap" = Some (VBool true).
Proof.
  intros H. rewrite resolve_sourcemap.
  destruct H as [-> | [[|] ->]]; reflexivity.
Qed.

Lemma boolean_sourcemap_forced_on_witness :
  lookup (resolveOptions [("sourcemap", VBool false)]) "sourcemap"
  = Some (VBool true) /\
  lookup (resolveOptions [("srcdir", VStr "lib")]) "sourcemap"
  = Some (VBool true).
Proof.
  split.
  - apply boolean_sourcemap_forced_on. right. now exists false.
  - apply boolean_sourcemap_forced_on. now left.
Defined.

(** X5: packing options that were already resolved does what packing
    the options themselves does. *)
Theorem pack_of_resolved_options (w : World) (options : object) :
  pack w (VObj (resolveOptions options)) = pack w (VObj options).
Proof.
  unfold pack, pack_object.
  now rewrite resolveOptions_fixpoint.
Qed.

(* ------------------------------------------------------------------ *)
(** ** Loading: which file is read and what its failures do *)
(* ------------------------------------------------------------------ *)

Section LoadingFacts.

Variable w : World.

Local Open Scope eff_scope.

Lemma truthy_name (file : string) : file <> "" -> truthy (VStr file) = true.
Proof. intros H. simpl. now destruct (String.eqb_spec file ""). Qed.

Lemma loadOptions_explicit_file (options : object) (file : string) :
  get_prop options "file" = VStr file -> file <> "" ->
  loadOptions w (Some options) = loadOptionsFile w file.
Proof.
  intros Hget Hfile. unfold loadOptions, arg_get.
  rewrite Hget, (truthy_name _ Hfile), bind_ret, (truthy_name _ Hfile).
  simpl negb. cbv iota.
  now rewrite (bind_lift_returned _ file).
Qed.

Lemma run_explicit_file (options : object) (file : string) :
  get_prop options "file" = VStr file -> file <> "" ->
  run w (Some options)
  = (loaded <- loadOptionsFile w file ;; pack w loaded).
Proof.
  intros Hget Hfile.
  rewrite run_with_file_or_root.
  - now rewrite (loadOptions_explicit_file _ file).
  - rewrite Hget. unfold or_else.
    now rewrite !(truthy_name _ Hfile).
Qed.

Lemma bind_thrown {A B} (t : list event) (e : exn) (f : A -> M B) :
  (x <- (t, Thrown e) ;; f x) = (t, Thrown e).
Proof. reflexivity. Qed.

Lemma bind_done {A B} (a : A) (f : A -> M B) :
  (x <- ([], Returned a) ;; f x) = f a.
Proof. apply bind_ret. Qed.


Lemma backslashes_to_slashes_chars (cs : list ascii) :
  List.map (fun c => if Ascii.eqb c "\"%char then "/"%char else c)
    (List.map (fun c => if Ascii.eqb c "\"%char then "/"%char else c) cs)
  = List.map (fun c => if Ascii.eqb c "\"%char then "/"%char else c) cs.
Proof.
  induction cs as [|c cs IH]; simpl; [reflexivity|].
  rewrite IH. f_equal.
  destruct (Ascii.eqb c "\"%char) eqn:E; [reflexivity | now rewrite E].
Qed.

Lemma backslashes_to_slashes_twice (s : string) :
  backslashes_to_slashes (backslashes_to_slashes s)
  = backslashes_to_slashes s.
Proof.
  unfold backslashes_to_slashes.
  now rewrite list_ascii_of_string_of_list_ascii, backslashes_to_slashes_chars.
Qed.

Lemma backslashes_to_slashes_empty (s : string) :
  (backslashes_to_slashes s =? "") = (s =? "").
Proof. destruct s; reflexivity. Qed.

End LoadingFacts.

(** X6: a configuration file named by [file] that cannot be read makes
    loading and [run] throw the read error, whatever the extension of
    the file: the read comes before the dispatch, outside the [try] of
    the script loaders, so nothing is logged and nothing is packed. *)
Theorem unreadable_config_file_throws
    (w : World) (options : object) (file : string) (e : exn) :
  get_prop options "file" = VStr file -> file <> "" ->
  readFileSync w file = Thrown e ->
  loadOptionsFile w file = ([], Thrown e) /\
  loadOptions w (Some options) = ([], Thrown e) /\
  run w (Some options) = ([], Thrown e).
Proof.
  intros Hget Hfile Hread.
  assert (Hload : loadOptionsFile w file = ([], Thrown e)).
  { unfold loadOptionsFile. now rewrite (bind_lift_thrown _ _ _ Hread). }
  split; [exact Hload|]. split.
  - now rewrite (loadOptions_explicit_file w _ file).
  - now rewrite (run_explicit_file w _ file), Hload.
Qed.

Lemma unreadable_config_file_throws_witness :
  loadOptionsFile Sample.world "/proj/library-pack.config.mjs"
  = ([], Thrown (Error ("ENOENT: no such file or directory, open "
                        ++ "'/proj/library-pack.config.mjs'"))) /\
  run Sample.world
    (Some [("file", VStr "/proj/library-pack.config.mjs");
           ("srcdir", VStr "lib")])
  = ([], Thrown (Error ("ENOENT: no such file or directory, open "
                        ++ "'/proj/library-pack.config.mjs'"))).
Proof.
  destruct (unreadable_config_file_throws Sample.world
              [("file", VStr "/proj/library-pack.config.mjs");
               ("srcdir", VStr "lib")]
              "/proj/library-pack.config.mjs"
              (Error ("ENOENT: no such file or directory, open "
                      ++ "'/proj/library-pack.config.mjs'")))
    as (Hload & _ & Hrun);
    [reflexivity | discriminate | reflexivity |].
  now split.
Defined.

(** X7: when [run] is given a [file], that file is the only thing it
    reads from its argument: [loadOptions] loads exactly that file
    without searching, and every other option passed along (srcdir,
    includes, a root) is discarded. *)
Theorem explicit_file_is_all_run_reads
    (w : World) (options : object) (file : string) :
  get_prop options "file" = VStr file -> file <> "" ->
  loadOptions w (Some options) = loadOptionsFile w file /\
  run w (Some options) = run w (Some [("file", VStr file)]).
Proof.
  intros Hget Hfile. split.
  - now apply loadOptions_explicit_file.
  - rewrite (run_explicit_file w options file) by assumption.
    symmetry. now apply run_explicit_file.
Qed.

Lemma explicit_file_is_all_run_reads_witness :
  loadOptions Sample.world
    (Some [("root", VStr "/proj/js"); ("file", VStr "/proj/library-pack.jsonc")])
  = loadOptionsFile Sample.world "/proj/library-pack.jsonc" /\
  run Sample.world
    (Some [("srcdir", VStr "lib"); ("file", VStr "/proj/library-pack.jsonc")])
  = run Sample.world (Some [("file", VStr "/proj/library-pack.jsonc")]).
Proof.
  split.
  - apply (explicit_file_is_all_run_reads Sample.world
             [("root", VStr "/proj/js");
              ("file", VStr "/proj/library-pack.jsonc")]);
      [reflexivity | discriminate].
  - apply (explicit_file_is_all_run_reads Sample.world
             [("srcdir", VStr "lib");
              ("file", VStr "/proj/library-pack.jsonc")]);
      [reflexivity | discriminate].
Defined.



(** X9: with no configuration file in the working directory, [run]
    called with no argument or with an empty object packs with the
    defaults: loading returns the empty record without reading a file,
    and [run] does what [pack({})] does. *)
Theorem run_without_config_packs_defaults (w : World) :
  globSync w (Cases.config_patterns (backslashes_to_slashes (cwd w))) = [] ->
  loadOptions w (Some [("root", VStr (cwd w))]) = ([], Returned (VObj [])) /\
  run w None = pack w (VObj []) /\
  run w (Some []) = pack w (VObj []).
Proof.
  intros Hnone.
  assert (Hdetect : detectOptionsFile w (VStr (cwd w)) = Returned VUndef).
  { unfold detectOptionsFile.
    destruct (truthy (VStr (cwd w))); simpl;
      unfold Cases.config_patterns in Hnone; now rewrite Hnone. }
  assert (Hload : loadOptions w (Some [("root", VStr (cwd w))])
                  = ([], Returned (VObj []))).
  { unfold loadOptions.
    change (arg_get (Some [("root", VStr (cwd w))]) "file") with VUndef.
    change (arg_get (Some [("root", VStr (cwd w))]) "root")
      with (VStr (cwd w)).
    simpl truthy. cbv iota.
    now rewrite (bind_lift_returned _ _ _ Hdetect). }
  split; [exact Hload|].
  rewrite run_without_arguments, run_with_empty_object, Hload.
  rewrite bind_done. now split.
Qed.

Lemma run_without_config_packs_defaults_witness :
  run Sample.no_config_world None = pack Sample.no_config_world (VObj []) /\
  run Cases.built_world (Some []) = pack Cases.built_world (VObj []).
Proof.
  split.
  - apply (run_without_config_packs_defaults Sample.no_config_world).
    reflexivity.
  - apply (run_without_config_packs_defaults Cases.built_world).
    reflexivity.
Defined.

(** X10: the search for a configuration file treats backslashes in the
    root as slashes, and an absent or empty root as the working
    directory: a root written with backslashes finds what the same root
    written with slashes finds. *)
Theorem detectOptionsFile_normalizes_root (w : World) :
  (forall root,
      detectOptionsFile w (VStr (backslashes_to_slashes root))
      = detectOptionsFile w (VStr root)) /\
  (forall root,
      truthy root = false ->
      detectOptionsFile w root = detectOptionsFile w (VStr (cwd w))).
Proof.
  split.
  - intros root. unfold detectOptionsFile. simpl truthy.
    rewrite backslashes_to_slashes_empty.
    destruct (root =? ""); simpl;
      now rewrite ?backslashes_to_slashes_twice.
  - intros root Hfalsy. unfold detectOptionsFile.
    rewrite Hfalsy. simpl truthy.
    destruct (String.eqb_spec (cwd w) "") as [Hcwd | _]; simpl;
      [now rewrite ?Hcwd | reflexivity].
Qed.

(** X11: a TypeScript configuration file that the transformer turns
    into no code is handled like one that throws: loading it logs one
    error and returns the empty record, without importing anything. *)
Theorem ts_config_without_code_is_soft (w : World) (file code : string) :
  one_of [".ts"; ".mts"] (Path.extname file) = true ->
  readFileSync w file = Returned code ->
  (oxc_transform w file code).(World.code) = "" ->
  loadOptionsFile w file
  = ([ConsolaError ("Failed to load TypeScript config from " ++ file ++ ":")
        (Error "Failed to transform TypeScript to JavaScript")],
     Returned (VObj [])).
Proof.
  intros Hext Hread Hcode.
  rewrite (proj2 (loadOptionsFile_script w file code Hread) Hext).
  now apply loadTSOptions_no_code with (code := code).
Qed.

Lemma ts_config_without_code_is_soft_witness :
  loadOptionsFile Sample.no_config_world "/proj/ts/library-pack.config.ts"
  = ([ConsolaError
        "Failed to load TypeScript config from /proj/ts/library-pack.config.ts:"
        (Error "Failed to transform TypeScript to JavaScript")],
     Returned (VObj [])).
Proof.
  apply (ts_config_without_code_is_soft Sample.no_config_world
           "/proj/ts/library-pack.config.ts" Sample.broken_script);
    reflexivity.
Defined.

(** X12: a readable configuration file whose extension is none of the
    ten the loader knows (no extension, .toml, .cts) is ignored in
    silence: loading it returns the empty record, and [run] on it packs
    with the defaults. *)
Theorem unknown_extension_is_ignored (w : World) (file code : string) :
  file <> "" ->
  one_of Cases.known_extensions (Path.extname file) = false ->
  readFileSync w file = Returned code ->
  loadOptionsFile w file = ([], Returned (VObj [])) /\
  run w (Some [("file", VStr file)]) = pack w (VObj []).
Proof.
  intros Hfile Hext Hread.
  assert (Hload : loadOptionsFile w file = ([], Returned (VObj []))).
  { unfold loadOptionsFile. rewrite (bind_lift_returned _ _ _ Hread).
    unfold one_of, Cases.known_extensions in Hext. simpl in Hext.
    repeat (apply orb_false_iff in Hext; destruct Hext as [?E Hext]).
    unfold one_of; simpl.
    now rewrite E, E0, E1, E2, E3, E4, E5, E6, E7, E8. }
  split; [exact Hload|].
  now rewrite (run_explicit_file w _ file), Hload, bind_done.
Qed.

Lemma unknown_extension_is_ignored_witness :
  loadOptionsFile Cases.built_world "/proj/src/Makefile"
  = ([], Returned (VObj [])) /\
  run Cases.built_world (Some [("file", VStr "/proj/src/Makefile")])
  = pack Cases.built_world (VObj []).
Proof.
  apply (unknown_extension_is_ignored Cases.built_world
           "/proj/src/Makefile" "all:");
    [discriminate | reflexivity | reflexivity].
Defined.

(* ------------------------------------------------------------------ *)
(** ** Emptying, transforming and packing: what reaches the disk *)
(* ------------------------------------------------------------------ *)

Section PackingFacts.

Import Cases.

Variable w : World.

Local Open Scope eff_scope.

Lemma for_each_emit {A} (f : A -> event) (l : list A) :
  for_each (fun x => emit (f x)) l = (List.map f l, Returned tt).
Proof.
  induction l as [|x l IH]; [reflexivity|].
  simpl. now rewrite IH.
Qed.

Lemma maybeEmptyDir_trace (dir : value) :
  maybeEmptyDir w dir
  = (match dir with
     | VStr d => if can_empty w d then removals w d else []
     | _ => []
     end, Returned tt).
Proof.
  destruct dir; try reflexivity.
  unfold maybeEmptyDir, can_empty, removals.
  destruct (negb (s =? "") && existsSync w s && isDirectory w s);
    [apply for_each_emit | reflexivity].
Qed.

Lemma maybeWriteFile_trace (file : string) (data : option string) :
  maybeWriteFile file data = (written file data, Returned tt).
Proof. now destruct data. Qed.

Lemma bind_emitted {A B} (t : list event) (a : A) (f : A -> M B) :
  (x <- (t, Returned a) ;; f x) = ((t ++ trace (f a))%list, result (f a)).
Proof. apply bind_logged. Qed.



Lemma transform_finish_answered (file code : string) (options : object)
    (paths : OutputPaths) (r : TransformResult) :
  oxc_transformAsync w file code options = Returned r ->
  transform_finish w file options (paths, code) = finished_with w file paths r.
Proof.
  intros Hanswer. unfold transform_finish, finished_with.
  rewrite (bind_lift_returned _ _ _ Hanswer).
  set (js_map := resolveSourceMap w (outfileDir paths) (map r)).
  set (dts_map := resolveSourceMap w (outfileDir paths) (declarationMap r)).
  clearbody js_map dts_map.
  destruct (declaration r), js_map as [[m1|]|e1], dts_map as [[m2|]|e2];
    reflexivity.
Qed.

Lemma written_keeps (file : string) (data : option string) :
  existsb is_removal (written file data) = false.
Proof. now destruct data. Qed.

Lemma transform_finish_keeps (file : string) (options : object)
    (started : OutputPaths * string) :
  existsb is_removal (trace (transform_finish w file options started)) = false.
Proof.
  destruct started as [paths code].
  destruct (oxc_transformAsync w file code options) as [r|e] eqn:Hanswer.
  - rewrite (transform_finish_answered _ _ _ _ _ Hanswer).
    unfold finished_with.
    destruct (resolveSourceMap w (outfileDir paths) (map r)) as [m1|e1];
      [destruct (resolveSourceMap w (outfileDir paths) (declarationMap r))
         as [m2|e2]|];
      unfold trace; simpl fst;
      rewrite ?existsb_app; simpl existsb;
      now rewrite ?existsb_app, ?written_keeps.
  - unfold transform_finish. now rewrite (bind_lift_thrown _ _ _ Hanswer).
Qed.

Lemma transform_as_started (options : object) (file : string) :
  transform w file options
  = match started_transform w options file with
    | Returned m => m
    | Thrown e => ([], Thrown e)
    end.
Proof.
  unfold transform, started_transform.
  destruct (transform_start w file options) as [s|e]; simpl; [|reflexivity].
  unfold bind, lift. now destruct (transform_finish w file options s).
Qed.

Lemma promise_all_trace {A} (start : A -> outcome (M unit)) (items : list A) :
  trace (promise_all start items)
  = flat_map (fun x => match start x with
                       | Returned m => trace m
                       | Thrown _ => []
                       end) items.
Proof.
  unfold promise_all, trace at 1. simpl.
  induction items as [|x items IH]; [reflexivity|].
  simpl. destruct (start x); simpl; now rewrite IH.
Qed.



Lemma resolved_includes_truthy (options : object) :
  (get_prop (resolveOptions options) "includes" || VArr [])%js
  = get_prop (resolveOptions options) "includes".
Proof.
  apply truthy_or_else_l.
  rewrite (get_of_lookup _ _ _ (resolve_includes options)).
  now apply or_else_truthy.
Qed.

Lemma resolved_emptyOutdir (options : object) :
  get_prop (resolveOptions options) "emptyOutdir"
  = get_prop options "emptyOutdir".
Proof.
  unfold get_prop. rewrite resolve_other; [reflexivity|].
  simpl. intuition discriminate.
Qed.

Lemma pack_glob_failed (options : object) (e : exn) :
  found_files w options = Thrown e ->
  pack w (VObj options) = ([], Thrown e).
Proof.
  intros Hglob. unfold pack, pack_object.
  rewrite resolved_includes_truthy.
  unfold found_files in Hglob.
  now rewrite (bind_lift_thrown _ _ _ Hglob).
Qed.

Lemma pack_found (options : object) (files : list string) :
  found_files w options = Returned files ->
  pack w (VObj options)
  = ((emptying w options
      ++ trace (promise_all (started_transform w (resolveOptions options))
                  files))%list,
     result (promise_all (started_transform w (resolveOptions options))
               files)).
Proof.
  intros Hglob. unfold pack, pack_object.
  rewrite resolved_includes_truthy.
  unfold found_files in Hglob.
  rewrite (bind_lift_returned _ _ _ Hglob).
  rewrite resolved_emptyOutdir. unfold emptying.
  destruct (truthy (get_prop options "emptyOutdir")).
  - rewrite maybeEmptyDir_trace. now rewrite bind_emitted.
  - now rewrite bind_ret.
Qed.

End PackingFacts.

(** X13: emptying a directory removes its entries and nothing else:
    for an existing directory [/d] with entries [items], exactly the
    paths [/d/item] are removed, one per entry in the order they are
    listed; the directory itself stays and nothing is thrown. *)
Theorem maybeEmptyDir_removes_children
    (w : World) (d items : list string) :
  forallb Path.is_plain d = true ->
  Cases.can_empty w (Path.absolute_of d) = true ->
  readdirSync w (Path.absolute_of d) = items ->
  forallb Path.is_plain items = true ->
  maybeEmptyDir w (VStr (Path.absolute_of d))
  = (List.map (fun item => RemoveTree (Path.absolute_of (d ++ [item])%list))
       items,
     Returned tt).
Proof.
  intros Hd Hcan Hread Hitems.
  rewrite maybeEmptyDir_trace, Hcan. unfold Cases.removals. rewrite Hread.
  f_equal. apply map_ext_in. intros item Hin.
  rewrite forallb_forall in Hitems.
  change item with (String.concat "/" [item]) at 1.
  rewrite join_absolute; [reflexivity | assumption | | discriminate].
  simpl. now rewrite (Hitems item Hin).
Qed.

Lemma maybeEmptyDir_removes_children_witness :
  maybeEmptyDir Cases.built_world (VStr "/proj/out")
  = ([RemoveTree "/proj/out/a"; RemoveTree "/proj/out/old.js"], Returned tt).
Proof.
  exact (maybeEmptyDir_removes_children Cases.built_world
           ["proj"; "out"] ["a"; "old.js"] eq_refl eq_refl eq_refl eq_refl).
Defined.

(** X14: [maybeEmptyDir] does nothing, and throws nothing, when its
    argument is absent, is the empty string, does not exist or is not a
    directory. *)
Theorem maybeEmptyDir_skips (w : World) (dir : value) :
  (forall d, dir = VStr d -> Cases.can_empty w d = false) ->
  maybeEmptyDir w dir = ([], Returned tt).
Proof.
  intros Hskip. rewrite maybeEmptyDir_trace.
  destruct dir; try reflexivity.
  now rewrite (Hskip s eq_refl).
Qed.

Lemma maybeEmptyDir_skips_witness :
  maybeEmptyDir Cases.built_world VUndef = ([], Returned tt) /\
  maybeEmptyDir Cases.built_world (VStr "/proj/dist") = ([], Returned tt) /\
  maybeEmptyDir Cases.built_world (VStr "/proj/out/old.js")
  = ([], Returned tt).
Proof.
  split; [|split]; apply maybeEmptyDir_skips; intros d Hd;
    [discriminate Hd | injection Hd as <- | injection Hd as <-];
    reflexivity.
Defined.





(** X17: a file that cannot be read, or that the transformer rejects,
    leaves no output at all: [transform] throws that error without
    writing or logging anything. *)
Theorem failed_transform_writes_nothing
    (w : World) (file : string) (options : object) (e : exn) :
  transform_start w file options = Thrown e \/
  (exists paths code,
      transform_start w file options = Returned (paths, code) /\
      oxc_transformAsync w file code options = Thrown e) ->
  transform w file options = ([], Thrown e).
Proof.
  intros [Hstart | (paths & code & Hstart & Hanswer)];
    rewrite transform_as_started; unfold Cases.started_transform;
    rewrite Hstart; [reflexivity|].
  cbv beta iota delta [obind]. unfold transform_finish.
  now rewrite (bind_lift_thrown _ _ _ Hanswer).
Qed.

Lemma failed_transform_writes_nothing_witness :
  transform Cases.built_world "/proj/src/missing.ts" []
  = ([], Thrown (Error ("ENOENT: no such file or directory, open "
                        ++ "'/proj/src/missing.ts'"))) /\
  transform (Cases.with_transformer (Thrown (Error "Unexpected token")))
    "/proj/src/a/b.ts" []
  = ([], Thrown (Error "Unexpected token")).
Proof.
  split.
  - apply failed_transform_writes_nothing. left. reflexivity.
  - apply failed_transform_writes_nothing. right.
    exists {| outfileDir := "/proj/out/a"; outBase := "/proj/out/a/b" |},
      "export const b: number = 1".
    split; reflexivity.
Defined.

Lemma trace_pair {A} (t : list event) (r : outcome A) : trace (t, r) = t.
Proof. reflexivity. Qed.



Lemma existsb_flat_map_false {A B} (p : B -> bool) (f : A -> list B)
    (l : list A) :
  (forall x, existsb p (f x) = false) -> existsb p (flat_map f l) = false.
Proof.
  intros H. induction l as [|x l IH]; [reflexivity|].
  simpl. now rewrite existsb_app, H, IH.
Qed.

(** X18: [pack] removes nothing unless [emptyOutdir] is set to a truthy
    value: with it absent or falsy, no run of [pack] contains a
    removal, whatever is found and whatever the transforms do. *)
Theorem pack_removes_only_on_request (w : World) (options : object) :
  truthy (get_prop options "emptyOutdir") = false ->
  existsb Cases.is_removal (trace (pack w (VObj options))) = false.
Proof.
  intros Hkeep.
  destruct (Cases.found_files w options) as [files|e] eqn:Hglob.
  - rewrite (pack_found w _ _ Hglob), trace_pair.
    unfold Cases.emptying. rewrite Hkeep, app_nil_l.
    rewrite promise_all_trace.
    apply existsb_flat_map_false. intros file.
    unfold Cases.started_transform.
    destruct (transform_start w file (resolveOptions options)); simpl;
      [apply transform_finish_keeps | reflexivity].
  - now rewrite (pack_glob_failed w _ _ Hglob).
Qed.

Lemma pack_removes_only_on_request_witness :
  existsb Cases.is_removal
    (trace (pack Cases.built_world (VObj [("outdir", VStr "/proj/out")])))
  = false.
Proof.
  apply pack_removes_only_on_request. reflexivity.
Defined.



(** X20: when the search for source files fails, [pack] throws that
    error before it touches the disk: nothing is removed, even with
    [emptyOutdir] set, and nothing is written. *)
Theorem pack_glob_failure_touches_nothing
    (w : World) (options : object) (e : exn) :
  Cases.found_files w options = Thrown e ->
  pack w (VObj options) = ([], Thrown e).
Proof. apply pack_glob_failed. Qed.

Lemma pack_glob_failure_touches_nothing_witness :
  pack Cases.glob_failing_world (VObj [("emptyOutdir", VBool true)])
  = ([], Thrown (Error "EACCES: permission denied, scandir")).
Proof.
  apply pack_glob_failure_touches_nothing. reflexivity.
Defined.

(** X21: a source file whose name has no dot has no extension to
    remove: [/src/rel/name] gets the output base [/out/rel/name], so its
    code is written to [/out/rel/name.js]. *)
Theorem output_base_keeps_undotted_name
    (w : World) (options : object) (srcdir outdir : string)
    (src out rel : list string) (name : string) :
  (get_prop options "srcdir" || VStr "src")%js = VStr srcdir ->
  (get_prop options "outdir" || VStr "out")%js = VStr outdir ->
  Path.resolve (cwd w) [srcdir] = Path.absolute_of src ->
  Path.resolve (cwd w) [outdir] = Path.absolute_of out ->
  forallb Path.is_plain (src ++ out ++ rel ++ [name])%list = true ->
  Path.dot_free name ->
  output_paths w (Path.absolute_of (src ++ rel ++ [name])%list) options
  = Returned {| outfileDir := Path.absolute_of (out ++ rel)%list;
                outBase := Path.absolute_of (out ++ rel ++ [name])%list |}.
Proof. apply output_base_without_extension. Qed.

Lemma output_base_keeps_undotted_name_witness :
  output_paths Cases.built_world "/proj/src/Makefile" []
  = Returned {| outfileDir := "/proj/out"; outBase := "/proj/out/Makefile" |}.
Proof.
  exact (output_base_keeps_undotted_name Cases.built_world [] "src" "out"
           ["proj"; "src"] ["proj"; "out"] [] "Makefile"
           eq_refl eq_refl eq_refl eq_refl eq_refl eq_refl).
Defined.

(** X22: a [typescript.declaration] object supplied by the caller is
    kept exactly as supplied, whatever it holds: resolution adds no
    [sourcemap] to it, so a declaration given without one stays without
    one. *)
Theorem explicit_declaration_kept_verbatim (p : object) (d : object) :
  opt_get (get_prop p "typescript") "declaration" = VObj d ->
  opt_get (get_prop (resolveOptions p) "typescript") "declaration" = VObj d.
Proof.
  intros Hd.
  rewrite (get_of_lookup _ _ _ (resolve_typescript p)).
  unfold resolved_typescript; simpl.
  rewrite get_set_same. unfold resolved_declaration. now rewrite Hd.
Qed.

Lemma explicit_declaration_kept_verbatim_witness :
  opt_get
    (get_prop
       (resolveOptions
          [("typescript",
             VObj [("declaration", VObj [("stripInternal", VBool true)])])])
       "typescript") "declaration"
  = VObj [("stripInternal", VBool true)].
Proof.
  apply explicit_declaration_kept_verbatim. reflexivity.
Defined.
